(** * HeKanKode: drift detector, outlier screen and waveform reducer

    A shallow embedding of [drift_detector.py], [bad_data_detector.py] and
    [waveform_analyzer.py].  Python floats and NumPy [float64] values are
    IEEE-754 binary64 numbers: they are modelled by Rocq's primitive floats,
    whose operations are the binary64 ones (round to nearest, ties to even),
    so every definition below evaluates on concrete inputs.  NumPy arrays are
    lists, written by index with stdpp's insert and read with its lookup. *)

From Stdlib Require Import ZArith Lia Floats String Sorted.
From stdpp Require Import base list gmap.

#[local] Set Warnings "-inexact-float".

(** ** Python and NumPy primitives on binary64 *)

Module Py.
#[local] Open Scope float_scope.

(** Python's builtin [max(a, b)]: the first argument is kept unless the
    second one is strictly greater ([b > a]). *)
Definition max (a b : float) : float := if a <? b then b else a.

(** [numpy.maximum] and [numpy.minimum]: a NaN operand gives NaN. *)
Definition np_maximum (a b : float) : float :=
  if is_nan a || is_nan b then nan else if a <? b then b else a.

Definition np_minimum (a b : float) : float :=
  if is_nan a || is_nan b then nan else if b <? a then b else a.

(** [numpy.clip(z, lo, hi)], which NumPy documents as
    [minimum(hi, maximum(z, lo))]. *)
Definition np_clip (z lo hi : float) : float :=
  np_minimum hi (np_maximum z lo).

(** An array read [a[i]] at an index known to be in range. *)
Definition at_ (a : list float) (i : nat) : float := default 0 (a !! i).

(** Exceptions, and the outcome of a call that may raise one. *)
Inductive exn : Type :=
| ValueError (msg : string)
| OverflowError (msg : string)
| MemoryError (msg : string).

Inductive result (A : Type) : Type :=
| Ok (a : A)
| Raise (e : exn).
Arguments Ok {A} a.
Arguments Raise {A} e.

#[global] Instance result_ret : MRet result := @Ok.

#[global] Instance result_bind : MBind result := fun A B f r =>
  match r with Ok a => f a | Raise e => Raise e end.

(** Python's builtin [max(iterable)]: the first item is kept until a
    strictly greater one is met; an empty iterable is a [ValueError]. *)
Definition max_of {A} (gt : A -> A -> bool) (l : list A) : result A :=
  match l with
  | [] => Raise (ValueError "max() arg is an empty sequence")
  | a :: l' => Ok (foldl (fun m b => if gt b m then b else m) a l')
  end.

(** The float of a Python [int] (exact below [2^53]). *)
Definition float_of_Z (z : Z) : float :=
  if (z <? 0)%Z then - of_uint63 (Uint63.of_Z (- z)) else of_uint63 (Uint63.of_Z z).

(** [int(f)]: truncation toward zero; NaN and the infinities raise. *)
Definition int (f : float) : result Z :=
  match Prim2SF f with
  | S754_nan => Raise (ValueError "cannot convert float NaN to integer")
  | S754_infinity _ => Raise (OverflowError "cannot convert float infinity to integer")
  | S754_zero _ => Ok 0%Z
  | S754_finite s m e =>
      let a := if (0 <=? e)%Z then Z.shiftl (Zpos m) e else Z.shiftr (Zpos m) (- e) in
      Ok (if s then (- a)%Z else a)
  end.

(** [int(numpy.round(f))]: the nearest integer, halves to the even one. *)
Definition int_round (f : float) : result Z :=
  match Prim2SF f with
  | S754_nan => Raise (ValueError "cannot convert float NaN to integer")
  | S754_infinity _ => Raise (OverflowError "cannot convert float infinity to integer")
  | S754_zero _ => Ok 0%Z
  | S754_finite s m e =>
      let a :=
        if (0 <=? e)%Z then Z.shiftl (Zpos m) e
        else
          let d := Z.shiftl 1 (- e) in
          let q := (Zpos m / d)%Z in
          let r := (Zpos m mod d)%Z in
          match (2 * r ?= d)%Z with
          | Lt => q
          | Gt => (q + 1)%Z
          | Eq => if Z.even q then q else (q + 1)%Z
          end in
      Ok (if s then (- a)%Z else a)
  end.

(** *** [numpy.sum]

    NumPy adds a contiguous array of doubles with its pairwise routine:
    fewer than eight items are added one after the other; up to 128 items
    are added into eight running sums, a block of eight at a time, the
    eight sums are then combined as a balanced tree and the items left over
    are added one by one; a longer array is cut in two near its middle, at
    a multiple of eight, and the two sums are added. *)

(** Fewer than eight items. *)
Definition seq_sum (a : list float) : float :=
  match a with
  | [] => 0
  | a0 :: a' => foldl PrimFloat.add a0 a'
  end.

(** The eight running sums [r[0..7]]. *)
Record acc8 := Acc8 {
  r0 : float; r1 : float; r2 : float; r3 : float;
  r4 : float; r5 : float; r6 : float; r7 : float
}.

(** [for (i = 8; i < n - (n % 8); i += 8) r[j] += a[i + j]]: every whole
    block of eight is added into the running sums; the fewer than eight
    items after the last whole block are handed back. *)
Fixpoint unrolled (r : acc8) (a : list float) {struct a} : acc8 * list float :=
  match a with
  | a0 :: a1 :: a2 :: a3 :: a4 :: a5 :: a6 :: a7 :: rest =>
      unrolled (Acc8 (r0 r + a0) (r1 r + a1) (r2 r + a2) (r3 r + a3)
                     (r4 r + a4) (r5 r + a5) (r6 r + a6) (r7 r + a7)) rest
  | _ => (r, a)
  end.

(** [res = ((r[0] + r[1]) + (r[2] + r[3])) + ((r[4] + r[5]) + (r[6] + r[7]))] *)
Definition tree8 (r : acc8) : float :=
  ((r0 r + r1 r) + (r2 r + r3 r)) + ((r4 r + r5 r) + (r6 r + r7 r)).

(** At most 128 items. *)
Definition block_sum (a : list float) : float :=
  match a with
  | a0 :: a1 :: a2 :: a3 :: a4 :: a5 :: a6 :: a7 :: rest =>
      let '(r, tail) := unrolled (Acc8 a0 a1 a2 a3 a4 a5 a6 a7) rest in
      foldl PrimFloat.add (tree8 r) tail
  | _ => seq_sum a
  end.

(** Any number of items; [fuel] bounds the depth of the halving, and the
    length of the array is always enough. *)
Fixpoint pairwise_sum (fuel : nat) (a : list float) : float :=
  match fuel with
  | S fuel' =>
      let n := length a in
      if (128 <? n)%nat then
        let n2 := (n / 2 - (n / 2) mod 8)%nat in
        pairwise_sum fuel' (take n2 a) + pairwise_sum fuel' (drop n2 a)
      else block_sum a
  | O => block_sum a
  end.

(** [numpy.sum] of a one-dimensional array of doubles (the sign of a zero
    sum aside, which depends on the sign of the zero NumPy starts from). *)
Definition np_sum (a : list float) : float := pairwise_sum (length a) a.

(** [a.mean()] *)
Definition np_mean (a : list float) : float :=
  np_sum a / float_of_Z (Z.of_nat (length a)).

(** [a.std(ddof=1)]: the root of the squared deviations from the mean,
    summed and divided by [n - 1]. *)
Definition np_std_ddof1 (a : list float) : float :=
  let arrmean := np_mean a in
  let sq := map (fun v => (v - arrmean) * (v - arrmean)) a in
  PrimFloat.sqrt (np_sum sq / float_of_Z (Z.max (Z.of_nat (length a) - 1) 0)).

(** [numpy.median] of an array of indices given in ascending order: the
    middle item, or the mean of the two middle ones. *)
Definition np_median (a : list nat) : float :=
  let n := length a in
  let mid := Nat.div n 2 in
  let item i := float_of_Z (Z.of_nat (default O (a !! i))) in
  if Nat.even n then (item (mid - 1)%nat + item mid) / 2 else item mid / 1.

End Py.


(** ** The EWMA + CUSUM drift detector ([drift_detector.py]) *)

Module Drift.
#[local] Open Scope float_scope.

Record config := Config {
  alpha_baseline : float;
  alpha_var : float;
  delta : float;
  h : float;
  warmup : Z;
  clip_z : option float
}.

(** The keyword defaults of [detect_drift_ewcusum]. *)
Definition default_config : config :=
  Config 0.01 0.05 0.25 5.0 100 (Some 6.0).

(** The dictionary the function returns. *)
Record output := Output {
  alarms : list nat;
  mu : list float;
  sigma : list float;
  S_plus : list float;
  S_minus : list float
}.

(** The local variables that live across iterations of the loop. *)
Record locals := Locals {
  mu_t : float;
  var_t : float;
  l_mu : list float;
  l_sig : list float;
  l_S_plus : list float;
  l_S_minus : list float;
  l_alarms : list nat
}.

(** [a[t-1] if t else 0.0] *)
Definition stored_prev (a : list float) (t : nat) : float :=
  match t with O => 0 | S p => Py.at_ a p end.

Section Detector.
Variable cfg : config.
Variable x : list float.

(** [k = delta / 2.0] *)
Definition k : float := delta cfg / 2.

(** Lines 56-57: winsorize when [clip_z] is not [None]. *)
Definition winsorize (z : float) : float :=
  match clip_z cfg with
  | Some c => Py.np_clip z (- c) c
  | None => z
  end.

(** Line 65: [t >= warmup and (S_plus_t > h or S_minus_t > h)]. *)
Definition alarm_test (t : nat) (S_plus_t S_minus_t : float) : bool :=
  (warmup cfg <=? Z.of_nat t)%Z && ((h cfg <? S_plus_t) || (h cfg <? S_minus_t)).

(** One iteration of the [for t in range(n)] loop, lines 44-69. *)
Definition body (st : locals) (t : nat) : locals :=
  let mu_t := (1 - alpha_baseline cfg) * mu_t st + alpha_baseline cfg * Py.at_ x t in
  let mu := <[t := mu_t]> (l_mu st) in
  let r := Py.at_ x t - mu_t in
  let var_t := (1 - alpha_var cfg) * var_t st + alpha_var cfg * (r * r) in
  let sigma_t := PrimFloat.sqrt (Py.max var_t 1e-12) in
  let sig := <[t := sigma_t]> (l_sig st) in
  let z := winsorize (r / (sigma_t + 1e-12)) in
  let S_plus_t :=
    Py.max 0 (stored_prev (l_S_plus st) t + z - k) in
  let S_minus_t :=
    Py.max 0 (stored_prev (l_S_minus st) t - z - k) in
  let S_plus := <[t := S_plus_t]> (l_S_plus st) in
  let S_minus := <[t := S_minus_t]> (l_S_minus st) in
  if alarm_test t S_plus_t S_minus_t then
    Locals mu_t var_t mu sig (<[t := 0]> S_plus) (<[t := 0]> S_minus)
           (l_alarms st ++ [t])
  else
    Locals mu_t var_t mu sig S_plus S_minus (l_alarms st).

(** Lines 31-41: the state on entry to the loop ([x] is not empty). *)
Definition init : locals :=
  let n := length x in
  Locals (Py.at_ x 0) 1e-6 (replicate n 0) (replicate n 0)
         (replicate n 0) (replicate n 0) [].

(** The state after the first [m] iterations. *)
Definition run (m : nat) : locals := foldl body init (seq 0 m).

Definition detect_drift_ewcusum : output :=
  match x with
  | [] => Output [] [] [] [] []
  | _ :: _ =>
      let st := run (length x) in
      Output (l_alarms st) (l_mu st) (l_sig st) (l_S_plus st) (l_S_minus st)
  end.

End Detector.

(** *** The detector with the re-arm removed

    The loop of [detect_drift_ewcusum] without lines 68-69: the alarm is
    still recorded, the accumulators are left as they are.  It is what the
    series "would be without the reset" are measured against. *)

Section NoRearm.
Variable cfg : config.
Variable x : list float.

Definition body_no_rearm (st : locals) (t : nat) : locals :=
  let mu_t := (1 - alpha_baseline cfg) * mu_t st + alpha_baseline cfg * Py.at_ x t in
  let mu := <[t := mu_t]> (l_mu st) in
  let r := Py.at_ x t - mu_t in
  let var_t := (1 - alpha_var cfg) * var_t st + alpha_var cfg * (r * r) in
  let sigma_t := PrimFloat.sqrt (Py.max var_t 1e-12) in
  let sig := <[t := sigma_t]> (l_sig st) in
  let z := winsorize cfg (r / (sigma_t + 1e-12)) in
  let S_plus_t :=
    Py.max 0 (stored_prev (l_S_plus st) t + z - k cfg) in
  let S_minus_t :=
    Py.max 0 (stored_prev (l_S_minus st) t - z - k cfg) in
  let S_plus := <[t := S_plus_t]> (l_S_plus st) in
  let S_minus := <[t := S_minus_t]> (l_S_minus st) in
  if alarm_test cfg t S_plus_t S_minus_t then
    Locals mu_t var_t mu sig S_plus S_minus (l_alarms st ++ [t])
  else
    Locals mu_t var_t mu sig S_plus S_minus (l_alarms st).

Definition run_no_rearm (m : nat) : locals :=
  foldl body_no_rearm (init x) (seq 0 m).

Definition detect_drift_no_rearm : output :=
  match x with
  | [] => Output [] [] [] [] []
  | _ :: _ =>
      let st := run_no_rearm (length x) in
      Output (l_alarms st) (l_mu st) (l_sig st) (l_S_plus st) (l_S_minus st)
  end.

End NoRearm.

(** *** The per-sample recurrence, index by index

    The series as the design states them: each value is a function of the
    time index, defined from the value one step earlier.  These are the
    right-hand sides the loop's output is compared with. *)

Section Recurrence.
Variable cfg : config.
Variable x : list float.

(** [mu[t] = (1 - alphaBaseline) * mu[t-1] + alphaBaseline * x[t]],
    [mu[-1] = x[0]]. *)
Fixpoint mu_rec (t : nat) : float :=
  let prev := match t with O => Py.at_ x 0 | S p => mu_rec p end in
  (1 - alpha_baseline cfg) * prev + alpha_baseline cfg * Py.at_ x t.

(** [r = x[t] - mu[t]], with the baseline already updated. *)
Definition residual (t : nat) : float := Py.at_ x t - mu_rec t.

(** [v[t] = (1 - alphaVar) * v[t-1] + alphaVar * r^2], [v[-1] = 1e-6]. *)
Fixpoint v_rec (t : nat) : float :=
  let prev := match t with O => 1e-6 | S p => v_rec p end in
  (1 - alpha_var cfg) * prev + alpha_var cfg * (residual t * residual t).

(** The variance that standardizes the residual: [max(v[t], eps)]. *)
Definition v_floored (t : nat) : float := Py.max (v_rec t) 1e-12.

Definition sigma_rec (t : nat) : float := PrimFloat.sqrt (v_floored t).

(** [z = r / (sigma[t] + 1e-12)], clamped to [[-clipZ, clipZ]]. *)
Definition z_rec (t : nat) : float :=
  winsorize cfg (residual t / (sigma_rec t + 1e-12)).

(** The accumulators of step [t] before the alarm test, from the values
    [(sp, sm)] stored at step [t-1]. *)
Definition cusum_plus (t : nat) (sp : float) : float :=
  Py.max 0 (sp + z_rec t - k cfg).

Definition cusum_minus (t : nat) (sm : float) : float :=
  Py.max 0 (sm - z_rec t - k cfg).

(** What is stored at index [t]: the pair above, or zeros on alarm. *)
Definition rearm (t : nat) (prev : float * float) : float * float :=
  let sp := cusum_plus t prev.1 in
  let sm := cusum_minus t prev.2 in
  if alarm_test cfg t sp sm then (0, 0) else (sp, sm).

Fixpoint acc_rec (t : nat) : float * float :=
  rearm t (match t with O => (0, 0) | S p => acc_rec p end).

(** The stored pair of the step before [t] ([(0, 0)] before the first). *)
Definition acc_prev (t : nat) : float * float :=
  match t with O => (0, 0) | S p => acc_rec p end.

(** Whether step [t] raises an alarm. *)
Definition alarm_at (t : nat) : bool :=
  alarm_test cfg t (cusum_plus t (acc_prev t).1) (cusum_minus t (acc_prev t).2).

End Recurrence.

End Drift.

(** ** The baseline outlier screen ([bad_data_detector.py]) *)

Module Screen.
#[local] Open Scope string_scope.
#[local] Open Scope float_scope.
Import Py.

(** [scipy.stats.t]: the quantile function and the distribution function
    of Student's t, each taking the degrees of freedom. *)
Record t_dist := TDist {
  ppf : float -> Z -> float;
  cdf : float -> Z -> float
}.

(** The dictionary the function returns. *)
Record verdict := Verdict {
  lower : float;
  upper : float;
  p_value : float;
  outlier : bool
}.

Section Test.
(** [Some t] when [from scipy.stats import t] succeeds, [None] when it
    raises and the [except] branch runs. *)
Variable scipy_t : option t_dist.
(** [math.erf] *)
Variable erf : float -> float.

Definition t_prediction_test (baseline : list float) (x_new alpha : float)
  : result verdict :=
  let n := length baseline in
  if (n <? 2)%nat then Raise (ValueError "Need at least 2 baseline points.")
  else
    let xbar := np_mean baseline in
    let s := np_std_ddof1 baseline in
    let se_pred := s * PrimFloat.sqrt (1 + 1 / float_of_Z (Z.of_nat n)) in
    let df := (Z.of_nat n - 1)%Z in
    let '(tcrit, p) :=
      match scipy_t with
      | Some t =>
          let tcrit := ppf t (1 - alpha / 2) df in
          let tstat := (x_new - xbar) / se_pred in
          (tcrit, 2 * (1 - cdf t (abs tstat) df))
      | None =>
          let zcrit :=
            if alpha =? 0.01 then 2.5758293035489004 else 1.959963984540054 in
          let z := (x_new - xbar) / se_pred in
          (zcrit, 2 * (1 - 0.5 * (1 + erf (abs z / PrimFloat.sqrt 2))))
      end in
    let lo := xbar - tcrit * se_pred in
    let hi := xbar + tcrit * se_pred in
    let is_outlier := (x_new <? lo) || (hi <? x_new) in
    Ok (Verdict lo hi p is_outlier).

End Test.

End Screen.

(** ** The waveform reducer ([waveform_analyzer.py]) *)

Module Waveform.
#[local] Open Scope string_scope.
#[local] Open Scope float_scope.
Import Py.

(** Lines 39-44: the quantized pressure of one sample. *)
Definition quantize (quantize_mode : string) (pressure : float) : result Z :=
  if String.eqb quantize_mode "round" then int_round pressure
  else if String.eqb quantize_mode "floor" then int pressure
  else Raise (ValueError "quantize_mode must be 'round' or 'floor'").

Section Loop.
Variable blanking_time : float.
Variable quantize_mode : string.
Variable max_pressure : Z.

(** One iteration of the loop of lines 37-48 on the locals
    [(bins, last_time)]. *)
Definition visit (st : list Z * float) (sample : float * float)
  : result (list Z * float) :=
  let '(bins, last_time) := st in
  let '(pressure, time) := sample in
  if blanking_time <=? time - last_time then
    pressure_int ← quantize quantize_mode pressure;
    let bins :=
      if ((0 <=? pressure_int) && (pressure_int <? max_pressure))%Z then
        let i := Z.to_nat pressure_int in
        <[i := (default 0 (bins !! i) + 1)%Z]> bins
      else bins in
    Ok (bins, time)
  else Ok (bins, last_time).

Fixpoint visit_all (st : list Z * float) (waveform : list (float * float))
  : result (list Z * float) :=
  match waveform with
  | [] => Ok st
  | sample :: rest => st' ← visit st sample; visit_all st' rest
  end.

End Loop.

(** [np.zeros(n, dtype=int)] of line 34.  A negative size is a
    [ValueError].  A size the machine cannot provide raises too (a
    [MemoryError], or NumPy's error for a dimension beyond its limit); which
    sizes those are is not decided by the program: [unallocatable n] is the
    exception raised for the size [n], and [None] when the array is
    allocated. *)
Definition np_zeros (unallocatable : Z -> option exn) (n : Z) : result (list Z) :=
  if (n <? 0)%Z then Raise (ValueError "negative dimensions are not allowed")
  else
    match unallocatable n with
    | Some e => Raise e
    | None => Ok (replicate (Z.to_nat n) 0%Z)
    end.

(** A machine with memory for every array. *)
Definition ample : Z -> option exn := fun _ => None.

Definition analyze_waveform (unallocatable : Z -> option exn)
    (waveform : list (float * float))
    (blanking_time : float) (quantize_mode : string) : result (list Z) :=
  match waveform with
  | [] => Ok []
  | _ :: _ =>
      top ← max_of (fun a b => b <? a) (map fst waveform);
      top_int ← (if String.eqb quantize_mode "round" then int_round top else int top);
      let max_pressure := (top_int + 1)%Z in
      bins ← np_zeros unallocatable max_pressure;
      let last_time := - blanking_time in
      st ← visit_all blanking_time quantize_mode max_pressure (bins, last_time) waveform;
      Ok st.1
  end.

(** [Counter(iterable)]: how many times each value occurs. *)
Definition Counter (l : list Z) : gmap Z nat :=
  foldl (fun c v => <[v := S (default O (c !! v))]> c) ∅ l.

(** [np.where(bins == c)[0]]: the indices holding [c], ascending. *)
Definition where_eq (bins : list Z) (c : Z) : list nat :=
  List.filter (fun i => (default 0 (bins !! i) =? c)%Z) (seq 0 (length bins)).

Definition find_pa_mean (bins : list Z) : result (option float) :=
  let non_zero_counts := List.filter (fun c => (0 <? c)%Z) bins in
  match non_zero_counts with
  | [] => Ok None
  | _ :: _ =>
      let count_frequencies := Counter non_zero_counts in
      let items := map_to_list count_frequencies in
      max_freq ← max_of (fun a b => (b <? a)%nat) (map snd items);
      let modes := map fst (List.filter (fun it => (it.2 =? max_freq)%nat) items) in
      modal_count ← max_of (fun a b => (b <? a)%Z) modes;
      let final_bin_indices := where_eq bins modal_count in
      match final_bin_indices with
      | [] => Ok None
      | _ :: _ => Ok (Some (np_median final_bin_indices))
      end
  end.

End Waveform.

(** * Properties *)

(** ** Facts about binary64 comparisons *)

Module FloatFacts.
#[local] Open Scope float_scope.

Lemma ltb_leb (a b : float) : (a <? b) = true -> (a <=? b) = true.
Proof.
  rewrite ltb_spec, leb_spec. unfold SFltb, SFleb.
  destruct (SFcompare (Prim2SF a) (Prim2SF b)) as [[]|]; congruence.
Qed.

(** Python's [max] never returns less than its first argument. *)
Lemma max_ge_left (a b : float) : (a <=? a) = true -> (a <=? Py.max a b) = true.
Proof.
  intros Ha. unfold Py.max. destruct (a <? b) eqn:E; [now apply ltb_leb | exact Ha].
Qed.

Lemma SFcompare_antisym (a b : spec_float) :
  SFcompare b a = option_map CompOpp (SFcompare a b).
Proof.
  destruct a as [sa|sa| |sa ma ea], b as [sb|sb| |sb mb eb]; simpl;
    try reflexivity; try (destruct sa; reflexivity); try (destruct sb; reflexivity);
    try (destruct sa, sb; reflexivity).
  destruct sa, sb; simpl; try reflexivity;
    rewrite (Z.compare_antisym ea eb); destruct (ea ?= eb)%Z; simpl;
    f_equal; try reflexivity;
    change (Pos.compare_cont Eq mb ma) with (Pos.compare mb ma);
    change (Pos.compare_cont Eq ma mb) with (Pos.compare ma mb);
    rewrite (Pos.compare_antisym ma mb); now destruct (ma ?= mb)%positive.
Qed.

Lemma Prim2SF_not_nan (a : float) : is_nan a = false -> Prim2SF a <> S754_nan.
Proof.
  intros Ha. unfold Prim2SF. rewrite Ha.
  destruct (is_zero a); [discriminate|].
  destruct (is_infinity a); [discriminate|].
  destruct (Z.frexp a) as [r e].
  destruct (shr_fexp _ _ _ _ _) as [shr e'].
  destruct (shr_m shr); discriminate.
Qed.

(** Two numbers are comparable: [a < b] fails only when [b <= a]. *)
Lemma not_ltb_leb (a b : float) :
  is_nan a = false -> is_nan b = false -> (a <? b) = false -> (b <=? a) = true.
Proof.
  intros Ha Hb. rewrite ltb_spec, leb_spec. unfold SFltb, SFleb.
  rewrite (SFcompare_antisym (Prim2SF a) (Prim2SF b)).
  apply Prim2SF_not_nan in Ha, Hb.
  destruct (SFcompare (Prim2SF a) (Prim2SF b)) as [[]|] eqn:E; simpl; try congruence.
  destruct (Prim2SF a) as [sa|sa| |sa ma ea], (Prim2SF b) as [sb|sb| |sb mb eb];
    simpl in E; congruence.
Qed.

(** A finite number times zero is a zero (of either sign). *)
Lemma mul_zero_finite (c : float) :
  is_finite c = true -> (c * 0 = 0 \/ c * 0 = -0)%float.
Proof.
  intros H. unfold is_finite in H.
  apply negb_true_iff, orb_false_iff in H. destruct H as [Hn Hi].
  assert (Hz : exists s, Prim2SF (c * 0) = S754_zero s).
  { rewrite mul_spec. change (Prim2SF 0) with (S754_zero false).
    unfold Prim2SF. rewrite Hn. destruct (is_zero c); [simpl; eauto|]. rewrite Hi.
    destruct (Z.frexp c) as [r e].
    destruct (shr_fexp _ _ _ _ _) as [shr e'].
    destruct (shr_m shr); simpl; eauto. }
  destruct Hz as [[|] Hz]; [right | left]; apply Prim2SF_inj; now rewrite Hz.
Qed.

End FloatFacts.

(** ** NaN in binary64 arithmetic and comparisons *)

Module NaNFacts.
#[local] Open Scope float_scope.

Lemma Prim2SF_is_nan (a : float) : is_nan a = true -> Prim2SF a = S754_nan.
Proof. intros H. unfold Prim2SF. now rewrite H. Qed.

(** There is one NaN. *)
Lemma is_nan_eq (a : float) : is_nan a = true -> a = nan.
Proof.
  intros H. rewrite <- (SF2Prim_Prim2SF a). now rewrite (Prim2SF_is_nan a H).
Qed.

Lemma SFcompare_nan_r (a : spec_float) : SFcompare a S754_nan = None.
Proof. now destruct a. Qed.

Lemma ltb_nan_l (b : float) : (nan <? b) = false.
Proof. rewrite ltb_spec. reflexivity. Qed.

Lemma ltb_nan_r (a : float) : (a <? nan) = false.
Proof.
  rewrite ltb_spec. unfold SFltb. change (Prim2SF nan) with S754_nan.
  now rewrite SFcompare_nan_r.
Qed.

Lemma leb_nan_l (b : float) : (nan <=? b) = false.
Proof. rewrite leb_spec. reflexivity. Qed.

Lemma leb_nan_r (a : float) : (a <=? nan) = false.
Proof.
  rewrite leb_spec. unfold SFleb. change (Prim2SF nan) with S754_nan.
  now rewrite SFcompare_nan_r.
Qed.

Lemma add_nan_l (b : float) : nan + b = nan.
Proof. apply Prim2SF_inj. rewrite add_spec. reflexivity. Qed.

Lemma add_nan_r (a : float) : a + nan = nan.
Proof.
  apply Prim2SF_inj. rewrite add_spec. change (Prim2SF nan) with S754_nan.
  now destruct (Prim2SF a).
Qed.

Lemma sub_nan_l (b : float) : nan - b = nan.
Proof. apply Prim2SF_inj. rewrite sub_spec. reflexivity. Qed.

Lemma sub_nan_r (a : float) : a - nan = nan.
Proof.
  apply Prim2SF_inj. rewrite sub_spec. change (Prim2SF nan) with S754_nan.
  now destruct (Prim2SF a).
Qed.

Lemma mul_nan_l (b : float) : nan * b = nan.
Proof. apply Prim2SF_inj. rewrite mul_spec. reflexivity. Qed.

Lemma mul_nan_r (a : float) : a * nan = nan.
Proof.
  apply Prim2SF_inj. rewrite mul_spec. change (Prim2SF nan) with S754_nan.
  now destruct (Prim2SF a).
Qed.

Lemma div_nan_l (b : float) : nan / b = nan.
Proof. apply Prim2SF_inj. rewrite div_spec. reflexivity. Qed.

(** A comparison that holds compares two numbers. *)
Lemma leb_not_nan (a b : float) :
  (a <=? b) = true -> is_nan a = false /\ is_nan b = false.
Proof.
  intros H. split.
  - destruct (is_nan a) eqn:E; [|reflexivity].
    apply is_nan_eq in E. subst a. now rewrite leb_nan_l in H.
  - destruct (is_nan b) eqn:E; [|reflexivity].
    apply is_nan_eq in E. subst b. now rewrite leb_nan_r in H.
Qed.

Lemma SFcompare_refl (a : spec_float) : SFcompare a a = Some Eq \/ SFcompare a a = None.
Proof.
  destruct a as [s|s| |s m e]; simpl; auto.
  - destruct s; auto.
  - left. rewrite Z.compare_refl.
    change (Pos.compare_cont Eq m m) with (Pos.compare m m).
    rewrite Pos.compare_refl. now destruct s.
Qed.

Lemma ltb_irrefl (a : float) : (a <? a) = false.
Proof.
  rewrite ltb_spec. unfold SFltb.
  now destruct (SFcompare_refl (Prim2SF a)) as [-> | ->].
Qed.

Lemma leb_refl (a : float) : is_nan a = false -> (a <=? a) = true.
Proof.
  intros H. apply FloatFacts.not_ltb_leb; try assumption. apply ltb_irrefl.
Qed.

(** Negation keeps a NaN a NaN and a number a number. *)
Lemma is_nan_opp (a : float) : is_nan (- a) = is_nan a.
Proof.
  destruct (is_nan a) eqn:E.
  - apply is_nan_eq in E. now subst a.
  - destruct (is_nan (- a)) eqn:E'; [|reflexivity].
    apply Prim2SF_is_nan in E'. rewrite opp_spec in E'.
    apply FloatFacts.Prim2SF_not_nan in E. now destruct (Prim2SF a).
Qed.

End NaNFacts.

(** ** The loop of the drift detector computes the recurrence *)

Module DriftLoop.
Import Drift.

Section Loop.
Variable cfg : config.
Variable x : list float.

(** An output array after [m] iterations: the first [m] cells hold the
    series [f], the others still hold the zeros of [np.zeros]. *)
Definition filled (f : nat -> float) (m : nat) : list float :=
  map f (seq 0 m) ++ replicate (length x - m) 0%float.

Lemma filled_store f m v :
  m < length x ->
  <[m := v]> (filled f m) = map f (seq 0 m) ++ v :: replicate (length x - S m) 0%float.
Proof.
  intros Hm. unfold filled.
  replace (length x - m) with (S (length x - S m)) by lia.
  rewrite insert_app_r_alt; rewrite length_map, length_seq; [|lia].
  now rewrite Nat.sub_diag.
Qed.

Lemma filled_S f m :
  m < length x -> <[m := f m]> (filled f m) = filled f (S m).
Proof.
  intros Hm. rewrite filled_store by assumption. unfold filled.
  rewrite seq_S, map_app. simpl. now rewrite <- app_assoc.
Qed.

Lemma filled_S_eq f m v :
  m < length x -> v = f m -> <[m := v]> (filled f m) = filled f (S m).
Proof. intros Hm ->. now apply filled_S. Qed.

Lemma alarms_S (a : nat -> bool) m :
  List.filter a (seq 0 (S m)) = List.filter a (seq 0 m) ++ (if a m then [m] else []).
Proof. rewrite seq_S, List.filter_app. reflexivity. Qed.

Lemma filled_lookup f m i : i < m -> filled f m !! i = Some (f i).
Proof.
  intros Hi. unfold filled.
  rewrite lookup_app_l by (rewrite length_map, length_seq; lia).
  rewrite list_lookup_fmap, lookup_seq_lt by lia. reflexivity.
Qed.

Lemma filled_at f m i : i < m -> Py.at_ (filled f m) i = f i.
Proof. intros Hi. unfold Py.at_. now rewrite filled_lookup. Qed.

Lemma filled_all f : filled f (length x) = map f (seq 0 (length x)).
Proof. unfold filled. rewrite Nat.sub_diag. simpl. apply app_nil_r. Qed.

(** The loop invariant: what the locals hold on entry to iteration [m]. *)
Record inv (m : nat) (st : locals) : Prop := Inv {
  inv_mu_t : mu_t st = match m with O => Py.at_ x 0 | S p => mu_rec cfg x p end;
  inv_var_t : var_t st = match m with O => 1e-6%float | S p => v_rec cfg x p end;
  inv_mu : l_mu st = filled (mu_rec cfg x) m;
  inv_sig : l_sig st = filled (sigma_rec cfg x) m;
  inv_S_plus : l_S_plus st = filled (fun t => (acc_rec cfg x t).1) m;
  inv_S_minus : l_S_minus st = filled (fun t => (acc_rec cfg x t).2) m;
  inv_alarms : l_alarms st = List.filter (alarm_at cfg x) (seq 0 m)
}.

Lemma inv_init : inv 0 (init x).
Proof.
  split; simpl; try reflexivity;
    unfold filled; simpl; now rewrite Nat.sub_0_r.
Qed.

Lemma prev_plus m st :
  inv m st ->
  stored_prev (l_S_plus st) m = (acc_prev cfg x m).1.
Proof.
  intros H. destruct m as [|p]; [reflexivity|]. simpl.
  rewrite (inv_S_plus _ _ H), filled_at by lia. reflexivity.
Qed.

Lemma prev_minus m st :
  inv m st ->
  stored_prev (l_S_minus st) m = (acc_prev cfg x m).2.
Proof.
  intros H. destruct m as [|p]; [reflexivity|]. simpl.
  rewrite (inv_S_minus _ _ H), filled_at by lia. reflexivity.
Qed.

Lemma acc_rec_unfold m : acc_rec cfg x m = rearm cfg x m (acc_prev cfg x m).
Proof. destruct m; reflexivity. Qed.

Lemma inv_body m st : m < length x -> inv m st -> inv (S m) (body cfg x st m).
Proof.
  intros Hm H.
  assert (Hmu : ((1 - alpha_baseline cfg) * mu_t st
                 + alpha_baseline cfg * Py.at_ x m)%float = mu_rec cfg x m).
  { rewrite (inv_mu_t _ _ H). destruct m; reflexivity. }
  assert (Hv : ((1 - alpha_var cfg) * var_t st
                + alpha_var cfg * (residual cfg x m * residual cfg x m))%float
               = v_rec cfg x m).
  { rewrite (inv_var_t _ _ H). destruct m; reflexivity. }
  unfold body. rewrite (prev_plus _ _ H), (prev_minus _ _ H), Hmu.
  fold (residual cfg x m). rewrite Hv.
  fold (v_floored cfg x m). fold (sigma_rec cfg x m). fold (z_rec cfg x m).
  fold (cusum_plus cfg x m (acc_prev cfg x m).1).
  fold (cusum_minus cfg x m (acc_prev cfg x m).2).
  fold (alarm_at cfg x m).
  rewrite (inv_mu _ _ H), (inv_sig _ _ H), (inv_S_plus _ _ H),
    (inv_S_minus _ _ H), (inv_alarms _ _ H).
  assert (Hacc := acc_rec_unfold m). unfold rearm in Hacc.
  fold (alarm_at cfg x m) in Hacc.
  destruct (alarm_at cfg x m) eqn:Ha.
  all: split; cbn [mu_t var_t l_mu l_sig l_S_plus l_S_minus l_alarms];
    rewrite ?list_insert_insert_eq, ?alarms_S, ?Ha, ?app_nil_r;
    try reflexivity; apply filled_S_eq; try assumption;
    try reflexivity; now rewrite Hacc.
Qed.

Lemma inv_run m : m <= length x -> inv m (run cfg x m).
Proof.
  induction m as [|m IH]; intros Hm; [apply inv_init|].
  unfold run. rewrite seq_S, foldl_app. simpl.
  apply inv_body; [lia|]. apply IH. lia.
Qed.

(** The five output series in closed form. *)
Theorem detect_closed_form :
  detect_drift_ewcusum cfg x =
  let idx := seq 0 (length x) in
  Output (List.filter (alarm_at cfg x) idx)
         (map (mu_rec cfg x) idx) (map (sigma_rec cfg x) idx)
         (map (fun t => (acc_rec cfg x t).1) idx)
         (map (fun t => (acc_rec cfg x t).2) idx).
Proof.
  unfold detect_drift_ewcusum. destruct x as [|x0 xs] eqn:Ex; [reflexivity|].
  rewrite <- Ex. destruct (inv_run (length x) (le_n _)) as [_ _ -> -> -> -> ->].
  now rewrite !filled_all.
Qed.

(** *** Reading the output series *)

Let out := detect_drift_ewcusum cfg x.

Lemma map_seq_lookup {A} (f : nat -> A) n t :
  t < n -> map f (seq 0 n) !! t = Some (f t).
Proof. intros Ht. now rewrite list_lookup_fmap, lookup_seq_lt by lia. Qed.

Lemma out_mu t : t < length x -> mu out !! t = Some (mu_rec cfg x t).
Proof.
  intros Ht. unfold out. rewrite detect_closed_form. now apply map_seq_lookup.
Qed.

Lemma out_sigma t : t < length x -> sigma out !! t = Some (sigma_rec cfg x t).
Proof.
  intros Ht. unfold out. rewrite detect_closed_form. now apply map_seq_lookup.
Qed.

Lemma out_S_plus t : t < length x -> S_plus out !! t = Some (acc_rec cfg x t).1.
Proof.
  intros Ht. unfold out. rewrite detect_closed_form.
  now apply (map_seq_lookup (fun t => (acc_rec cfg x t).1)).
Qed.

Lemma out_S_minus t : t < length x -> S_minus out !! t = Some (acc_rec cfg x t).2.
Proof.
  intros Ht. unfold out. rewrite detect_closed_form.
  now apply (map_seq_lookup (fun t => (acc_rec cfg x t).2)).
Qed.

Lemma out_prev_plus t :
  t < length x -> stored_prev (S_plus out) t = (acc_prev cfg x t).1.
Proof.
  intros Ht. destruct t as [|p]; [reflexivity|]. simpl. unfold Py.at_.
  now rewrite out_S_plus by lia.
Qed.

Lemma out_prev_minus t :
  t < length x -> stored_prev (S_minus out) t = (acc_prev cfg x t).2.
Proof.
  intros Ht. destruct t as [|p]; [reflexivity|]. simpl. unfold Py.at_.
  now rewrite out_S_minus by lia.
Qed.

Lemma out_alarm t : In t (alarms out) <-> t < length x /\ alarm_at cfg x t = true.
Proof.
  unfold out. rewrite detect_closed_form. simpl.
  rewrite List.filter_In, in_seq. intuition lia.
Qed.

(** The scalars carried from one iteration to the next. *)
Lemma carried t :
  t < length x ->
  mu_t (run cfg x (S t)) = mu_rec cfg x t /\ var_t (run cfg x (S t)) = v_rec cfg x t.
Proof.
  intros Ht. destruct (inv_run (S t) Ht) as [H1 H2 _ _ _ _ _]. now split.
Qed.

(** *** The variant without re-arm has the same baseline and scale *)

Record inv_no_rearm (m : nat) (st : locals) : Prop := InvNoRearm {
  nr_mu_t : mu_t st = match m with O => Py.at_ x 0 | S p => mu_rec cfg x p end;
  nr_var_t : var_t st = match m with O => 1e-6%float | S p => v_rec cfg x p end;
  nr_mu : l_mu st = filled (mu_rec cfg x) m;
  nr_sig : l_sig st = filled (sigma_rec cfg x) m
}.

Lemma inv_no_rearm_body m st :
  m < length x -> inv_no_rearm m st -> inv_no_rearm (S m) (body_no_rearm cfg x st m).
Proof.
  intros Hm [H1 H2 H3 H4].
  assert (Hmu : ((1 - alpha_baseline cfg) * mu_t st
                 + alpha_baseline cfg * Py.at_ x m)%float = mu_rec cfg x m).
  { rewrite H1. destruct m; reflexivity. }
  assert (Hv : ((1 - alpha_var cfg) * var_t st
                + alpha_var cfg * (residual cfg x m * residual cfg x m))%float
               = v_rec cfg x m).
  { rewrite H2. destruct m; reflexivity. }
  unfold body_no_rearm. rewrite Hmu. fold (residual cfg x m). rewrite Hv.
  fold (v_floored cfg x m). fold (sigma_rec cfg x m). rewrite H3, H4.
  destruct (alarm_test _ _ _ _); split; cbn [mu_t var_t l_mu l_sig];
    try reflexivity; now apply filled_S.
Qed.

Lemma inv_no_rearm_run m : m <= length x -> inv_no_rearm m (run_no_rearm cfg x m).
Proof.
  induction m as [|m IH]; intros Hm.
  - split; simpl; try reflexivity; unfold filled; simpl; now rewrite Nat.sub_0_r.
  - unfold run_no_rearm. rewrite seq_S, foldl_app. simpl.
    apply inv_no_rearm_body; [lia|]. apply IH. lia.
Qed.

Lemma no_rearm_same_mu_sigma :
  mu out = mu (detect_drift_no_rearm cfg x)
  /\ sigma out = sigma (detect_drift_no_rearm cfg x).
Proof.
  unfold out. rewrite detect_closed_form. unfold detect_drift_no_rearm.
  destruct x as [|x0 xs] eqn:Ex; [now split|]. rewrite <- Ex.
  destruct (inv_no_rearm_run (length x) (le_n _)) as [_ _ H3 H4].
  simpl. rewrite H3, H4, !filled_all. now split.
Qed.

End Loop.

End DriftLoop.

(** ** The drift detector: recurrence, floor, re-arm, warm-up *)

Module DriftClaims.
Import Drift DriftLoop.

(** A short series used to instantiate the statements below. *)
Definition sample : list float := [5.0; 5.1; 4.9; 7.0]%float.

(** A configuration that alarms early: no warm-up, low threshold. *)
Definition eager : config := Config 0.01 0.05 0.25 1.0 0 (Some 6.0%float).

(** Lines 56-57 written out: [np.clip(z, -c, c)] is [z] raised to [-c]
    and then lowered to [c], and NaN as soon as [z] or [c] is. *)
Lemma winsorize_clamp (cfg : config) (z : float) :
  winsorize cfg z
  = match clip_z cfg with
    | None => z
    | Some c =>
        if is_nan z || is_nan c then nan
        else
          let m := if (z <? - c)%float then (- c)%float else z in
          if (m <? c)%float then m else c
    end.
Proof.
  unfold winsorize. destruct (clip_z cfg) as [c|]; [|reflexivity].
  unfold Py.np_clip, Py.np_maximum, Py.np_minimum.
  rewrite NaNFacts.is_nan_opp.
  destruct (is_nan z) eqn:Ez; simpl.
  - now rewrite orb_true_r.
  - destruct (is_nan c) eqn:Ec; simpl; [reflexivity|].
    assert (Hm : is_nan (if (z <? - c)%float then (- c)%float else z) = false).
    { destruct (z <? - c)%float; [|exact Ez].
      now rewrite NaNFacts.is_nan_opp. }
    now rewrite Hm.
Qed.

(** C1: at every index [t] of a non-empty input the returned series obey
    the per-sample recurrence, in order.  [mu[t]] is the EWMA of [mu[t-1]]
    (read from the returned series; [x[0]] before the first sample) and
    [x[t]].  The residual [r] uses the updated baseline [mu[t]].  The
    carried variance is the EWMA of the variance carried out of step [t-1]
    ([1e-6] before the first sample) and [r^2].  [sigma[t]] is the square
    root of that variance floored at [1e-12].  [z] is [r / (sigma[t] +
    1e-12)], raised to [-clipZ] and lowered to [clipZ] when [clipZ] is
    given.  The accumulators before the alarm test are [max(0, S[t-1] +- z
    - delta/2)] with [S[t-1]] the value stored in the returned series at
    [t-1] ([0] before the first sample): they are what is stored at [t]
    unless the step alarms, and zeros are stored if it does.  Every array
    read, maximum and clamp is written out with the primitive binary64
    operations. *)
Theorem recurrence_holds (cfg : config) (x : list float) (t : nat) :
  t < length x ->
  let out := detect_drift_ewcusum cfg x in
  let x_t := default 0%float (x !! t) in
  let mu_prev :=
    match t with O => default 0%float (x !! 0) | S p => default 0%float (mu out !! p) end in
  let v_prev :=
    match t with O => 1e-6%float | S p => var_t (run cfg x (S p)) end in
  let v := var_t (run cfg x (S t)) in
  let r := (x_t - default 0 (mu out !! t))%float in
  let raw := (r / (default 0 (sigma out !! t) + 1e-12))%float in
  let z :=
    match clip_z cfg with
    | None => raw
    | Some c =>
        if is_nan raw || is_nan c then nan
        else
          let m := if (raw <? - c)%float then (- c)%float else raw in
          if (m <? c)%float then m else c
    end in
  let sp_prev :=
    match t with O => 0%float | S p => default 0%float (S_plus out !! p) end in
  let sm_prev :=
    match t with O => 0%float | S p => default 0%float (S_minus out !! p) end in
  let sp :=
    let y := (sp_prev + z - delta cfg / 2)%float in if (0 <? y)%float then y else 0%float in
  let sm :=
    let y := (sm_prev - z - delta cfg / 2)%float in if (0 <? y)%float then y else 0%float in
  let alarm :=
    (warmup cfg <=? Z.of_nat t)%Z && ((h cfg <? sp)%float || (h cfg <? sm)%float) in
  mu out !! t
    = Some ((1 - alpha_baseline cfg) * mu_prev + alpha_baseline cfg * x_t)%float
  /\ v = ((1 - alpha_var cfg) * v_prev + alpha_var cfg * (r * r))%float
  /\ sigma out !! t
     = Some (PrimFloat.sqrt (if (v <? 1e-12)%float then 1e-12%float else v))
  /\ S_plus out !! t = Some (if alarm then 0%float else sp)
  /\ S_minus out !! t = Some (if alarm then 0%float else sm).
Proof.
  intros Ht out.
  assert (Hmu : mu out !! t = Some (mu_rec cfg x t)) by (unfold out; now rewrite out_mu).
  assert (Hsig : sigma out !! t = Some (sigma_rec cfg x t))
    by (unfold out; now rewrite out_sigma).
  assert (Hprev : match t with
                  | O => default 0%float (x !! 0)
                  | S p => default 0%float (mu out !! p)
                  end
                  = match t with O => Py.at_ x 0 | S p => mu_rec cfg x p end).
  { destruct t as [|p]; [reflexivity|]. unfold out. now rewrite out_mu by lia. }
  assert (Hvprev : match t with
                   | O => 1e-6%float
                   | S p => var_t (run cfg x (S p))
                   end
                   = match t with O => 1e-6%float | S p => v_rec cfg x p end).
  { destruct t as [|p]; [reflexivity|]. apply (carried cfg x p). lia. }
  assert (Hsp : match t with
                | O => 0%float
                | S p => default 0%float (S_plus out !! p)
                end = (acc_prev cfg x t).1).
  { rewrite <- (out_prev_plus cfg x t Ht). now destruct t. }
  assert (Hsm : match t with
                | O => 0%float
                | S p => default 0%float (S_minus out !! p)
                end = (acc_prev cfg x t).2).
  { rewrite <- (out_prev_minus cfg x t Ht). now destruct t. }
  destruct (carried cfg x t Ht) as [_ Hv].
  cbv zeta. rewrite Hprev, Hvprev, Hv, Hsp, Hsm.
  rewrite Hmu, Hsig. cbn [default from_option id].
  unfold out. rewrite out_S_plus, out_S_minus by assumption.
  rewrite (acc_rec_unfold cfg x t).
  unfold rearm, cusum_plus, cusum_minus, z_rec. rewrite winsorize_clamp. cbv zeta.
  unfold alarm_test, Py.max, k, residual, Py.at_.
  split; [destruct t; reflexivity|].
  split; [destruct t; reflexivity|].
  split; [reflexivity|].
  match goal with
  | |- context [if ?b then (0%float, 0%float) else _] => destruct b
  end; split; reflexivity.
Qed.

Lemma recurrence_holds_witness :
  3 < length sample
  /\ mu (detect_drift_ewcusum default_config sample) !! 3
     = Some ((1 - 0.01)
             * default 0%float (mu (detect_drift_ewcusum default_config sample) !! 2%nat)
             + 0.01 * 7.0)%float.
Proof.
  split; [simpl; lia|].
  exact (proj1 (recurrence_holds default_config sample 3 ltac:(simpl; lia))).
Defined.

(** The variance floor as the design states it: at every index both the
    variance carried into the next step and the variance that standardizes
    the residual are at least [1e-12]. *)
Definition variance_floor_everywhere (cfg : config) (x : list float) : Prop :=
  forall t, t < length x ->
    let v := var_t (run cfg x (S t)) in
    (1e-12 <=? v)%float = true /\ (1e-12 <=? Py.max v 1e-12)%float = true.

(** C2, as stated, fails: on 300 copies of [5.0] with the default
    configuration the carried variance decays below [1e-12]; the loop
    floors the variance where it is used, not where it is kept. *)
Lemma variance_floor_carried_fails :
  ~ variance_floor_everywhere default_config (replicate 300 5.0%float).
Proof.
  intros H. destruct (H 299 ltac:(rewrite length_replicate; lia)) as [Hv _].
  vm_compute in Hv. discriminate Hv.
Qed.

(** C2, amended: at every index [t] the variance that standardizes the
    residual is the carried variance passed through [max(., 1e-12)];
    [sigma[t]] is its square root; it is never below [1e-12], and it is at
    least [1e-12] whenever the carried variance is a number. *)
Theorem variance_floor_at_use (cfg : config) (x : list float) (t : nat) :
  t < length x ->
  let v := var_t (run cfg x (S t)) in
  let used := Py.max v 1e-12 in
  sigma (detect_drift_ewcusum cfg x) !! t = Some (PrimFloat.sqrt used)
  /\ (used <? 1e-12)%float = false
  /\ (is_nan v = false -> (1e-12 <=? used)%float = true).
Proof.
  intros Ht v used.
  destruct (carried cfg x t Ht) as [_ Hv].
  split; [|split].
  - rewrite out_sigma by assumption. unfold sigma_rec, v_floored, used, v.
    now rewrite Hv.
  - unfold used, Py.max. destruct (v <? 1e-12)%float eqn:E; [reflexivity | exact E].
  - intros Hn. unfold used, Py.max. destruct (v <? 1e-12)%float eqn:E.
    + reflexivity.
    + now apply FloatFacts.not_ltb_leb.
Qed.

Lemma variance_floor_at_use_witness :
  3 < length sample
  /\ (Py.max (var_t (run default_config sample 4)) 1e-12 <? 1e-12)%float = false.
Proof.
  split; [simpl; lia|].
  exact (proj1 (proj2 (variance_floor_at_use default_config sample 3 ltac:(simpl; lia)))).
Defined.

(** C3: when index [i] is an alarm, the stored accumulators at [i] are both
    zero, and from [i] on the baseline and scale series equal those of the
    loop run without the reset. *)
Theorem rearm_resets_only_accumulators (cfg : config) (x : list float) (i : nat) :
  In i (alarms (detect_drift_ewcusum cfg x)) ->
  S_plus (detect_drift_ewcusum cfg x) !! i = Some 0%float
  /\ S_minus (detect_drift_ewcusum cfg x) !! i = Some 0%float
  /\ forall j, i <= j ->
       mu (detect_drift_ewcusum cfg x) !! j = mu (detect_drift_no_rearm cfg x) !! j
       /\ sigma (detect_drift_ewcusum cfg x) !! j
          = sigma (detect_drift_no_rearm cfg x) !! j.
Proof.
  intros Hi. apply out_alarm in Hi. destruct Hi as [Hi Ha].
  rewrite out_S_plus, out_S_minus by assumption.
  rewrite (acc_rec_unfold cfg x i). unfold rearm.
  unfold alarm_at in Ha. rewrite Ha. simpl.
  destruct (no_rearm_same_mu_sigma cfg x) as [Hm Hs].
  split; [reflexivity|]. split; [reflexivity|].
  intros j _. rewrite <- Hm, <- Hs. now split.
Qed.

Lemma rearm_resets_only_accumulators_witness :
  In 1 (alarms (detect_drift_ewcusum eager sample))
  /\ S_plus (detect_drift_ewcusum eager sample) !! 1 = Some 0%float.
Proof.
  assert (H : In 1 (alarms (detect_drift_ewcusum eager sample))).
  { vm_compute. auto. }
  split; [exact H|].
  exact (proj1 (rearm_resets_only_accumulators eager sample 1 H)).
Defined.

(** C4: every returned alarm index [t] is at or past [warmup], and at that
    step one of the accumulators, computed from the values stored at
    [t-1], exceeded [h]. *)
Theorem alarm_only_after_warmup (cfg : config) (x : list float) (t : nat) :
  In t (alarms (detect_drift_ewcusum cfg x)) ->
  let out := detect_drift_ewcusum cfg x in
  let r := (Py.at_ x t - Py.at_ (mu out) t)%float in
  let z := winsorize cfg (r / (Py.at_ (sigma out) t + 1e-12))%float in
  let sp := Py.max 0 (stored_prev (S_plus out) t + z - delta cfg / 2)%float in
  let sm := Py.max 0 (stored_prev (S_minus out) t - z - delta cfg / 2)%float in
  (warmup cfg <= Z.of_nat t)%Z
  /\ t < length x
  /\ ((h cfg <? sp)%float = true \/ (h cfg <? sm)%float = true).
Proof.
  intros Hin out. apply out_alarm in Hin. destruct Hin as [Ht Ha].
  assert (Hmu : Py.at_ (mu out) t = mu_rec cfg x t).
  { unfold Py.at_, out. now rewrite out_mu. }
  assert (Hsig : Py.at_ (sigma out) t = sigma_rec cfg x t).
  { unfold Py.at_, out. now rewrite out_sigma. }
  cbv zeta. rewrite Hmu, Hsig. unfold out.
  rewrite (out_prev_plus cfg x t Ht), (out_prev_minus cfg x t Ht).
  unfold alarm_at, alarm_test, cusum_plus, cusum_minus, z_rec, residual, k in Ha.
  apply andb_prop in Ha. destruct Ha as [Hw Hs].
  apply Z.leb_le in Hw. apply orb_prop in Hs. auto.
Qed.

Lemma alarm_only_after_warmup_witness :
  In 1 (alarms (detect_drift_ewcusum eager sample)) /\ (warmup eager <= 1)%Z.
Proof.
  assert (H : In 1 (alarms (detect_drift_ewcusum eager sample))).
  { vm_compute. auto. }
  split; [exact H|].
  exact (proj1 (alarm_only_after_warmup eager sample 1 H)).
Defined.

(** C5: every stored accumulator value is non-negative. *)
Theorem accumulators_nonnegative (cfg : config) (x : list float) (t : nat) :
  t < length x ->
  exists sp sm,
    S_plus (detect_drift_ewcusum cfg x) !! t = Some sp
    /\ S_minus (detect_drift_ewcusum cfg x) !! t = Some sm
    /\ (0 <=? sp)%float = true /\ (0 <=? sm)%float = true.
Proof.
  intros Ht. exists (acc_rec cfg x t).1, (acc_rec cfg x t).2.
  rewrite out_S_plus, out_S_minus by assumption.
  repeat split; rewrite acc_rec_unfold; unfold rearm;
    destruct (alarm_test cfg t _ _); simpl; try reflexivity;
    now apply FloatFacts.max_ge_left.
Qed.

Lemma accumulators_nonnegative_witness :
  3 < length sample
  /\ exists sp sm,
       S_plus (detect_drift_ewcusum default_config sample) !! 3 = Some sp
       /\ S_minus (detect_drift_ewcusum default_config sample) !! 3 = Some sm
       /\ (0 <=? sp)%float = true /\ (0 <=? sm)%float = true.
Proof.
  split; [simpl; lia|].
  apply (accumulators_nonnegative default_config sample 3). simpl; lia.
Defined.

(** C9: on the empty sequence the function returns at once, whatever the
    configuration, and the five returned containers are empty. *)
Theorem empty_input_empty_output (cfg : config) :
  detect_drift_ewcusum cfg [] = Output [] [] [] [] [].
Proof. reflexivity. Qed.

End DriftClaims.

(** ** The outlier screen *)

Module ScreenClaims.
Import Py Screen.

(** C6: with baseline [[10, 10, 10, 10]], candidate [50] and [alpha = 0.01]
    the screen returns (it does not raise) and flags the candidate, with the
    normal fallback as well as with SciPy, provided SciPy's critical value is
    a finite number. *)
Theorem outlier_scenario (scipy_t : option t_dist) (erf : float -> float) :
  (forall t, scipy_t = Some t -> is_finite (ppf t (1 - 0.01 / 2) 3) = true) ->
  exists v,
    t_prediction_test scipy_t erf [10; 10; 10; 10]%float 50 0.01 = Ok v
    /\ outlier v = true.
Proof.
  intros Hfin. destruct scipy_t as [t|].
  - destruct (FloatFacts.mul_zero_finite _ (Hfin t eq_refl)) as [E|E];
      vm_compute in E; eexists; (split; [reflexivity|]);
      vm_compute; rewrite E; reflexivity.
  - eexists. split; [reflexivity|]. vm_compute. reflexivity.
Qed.

Lemma outlier_scenario_witness :
  exists v,
    t_prediction_test None (fun _ => 1%float) [10; 10; 10; 10]%float 50 0.01 = Ok v
    /\ outlier v = true.
Proof.
  apply (outlier_scenario None (fun _ => 1%float)). intros t Ht. discriminate Ht.
Defined.

(** C7: with fewer than two baseline points the screen raises the
    [ValueError] that says so, whatever the candidate and the level; with
    two or more it returns the interval, the p-value and the flag, which
    says whether the candidate lies outside the interval. *)
Theorem needs_two_points (scipy_t : option t_dist) (erf : float -> float)
    (baseline : list float) (x_new alpha : float) :
  (length baseline < 2 ->
     t_prediction_test scipy_t erf baseline x_new alpha
     = Raise (ValueError "Need at least 2 baseline points."))
  /\ (2 <= length baseline ->
        exists v,
          t_prediction_test scipy_t erf baseline x_new alpha = Ok v
          /\ outlier v = ((x_new <? lower v) || (upper v <? x_new))%float).
Proof.
  unfold t_prediction_test. split; intros Hn.
  - apply Nat.ltb_lt in Hn. now rewrite Hn.
  - apply Nat.ltb_ge in Hn. rewrite Hn.
    destruct scipy_t as [t|]; eexists; split; reflexivity.
Qed.

Lemma needs_two_points_witness :
  t_prediction_test None (fun _ => 1%float) [10%float] 50 0.01
  = Raise (ValueError "Need at least 2 baseline points.").
Proof.
  apply (proj1 (needs_two_points None (fun _ => 1%float) [10%float] 50 0.01)).
  simpl. lia.
Defined.

End ScreenClaims.

(** ** Python's [max] and [Counter] *)

Module PyFacts.
Import Py.

Section MaxOf.
Context {A : Type} (gt : A -> A -> bool) (R : A -> A -> Prop).
Hypothesis R_refl : forall a, R a a.
Hypothesis R_trans : forall a b c, R a b -> R b c -> R a c.
Hypothesis gt_true : forall a b, gt b a = true -> R a b.
Hypothesis gt_false : forall a b, gt b a = false -> R b a.

Lemma foldl_max_spec (l : list A) (a : A) :
  let m := foldl (fun m b => if gt b m then b else m) a l in
  (m = a \/ In m l) /\ R a m /\ (forall y, In y l -> R y m).
Proof.
  revert a. induction l as [|b l IH]; intros a; simpl.
  - split; [now left|]. split; [apply R_refl|]. intros y [].
  - destruct (IH (if gt b a then b else a)) as (Hin & Ha & Hall).
    destruct (gt b a) eqn:E.
    + split; [destruct Hin as [->|Hin]; auto|].
      split; [apply R_trans with b; auto|].
      intros y [<-|Hy]; auto.
    + split; [destruct Hin as [->|Hin]; auto|].
      split; [assumption|].
      intros y [<-|Hy]; [apply R_trans with a; auto | auto].
Qed.

Lemma max_of_spec (l : list A) :
  l <> [] -> exists m, max_of gt l = Ok m /\ In m l /\ (forall y, In y l -> R y m).
Proof.
  destruct l as [|a l]; [congruence|]. intros _.
  destruct (foldl_max_spec l a) as (Hin & Ha & Hall).
  eexists. split; [reflexivity|]. split.
  - destruct Hin as [->|Hin]; [now left | now right].
  - intros y [<-|Hy]; auto.
Qed.

End MaxOf.

Lemma max_of_nat (l : list nat) :
  l <> [] ->
  exists m, max_of (fun a b => (b <? a)%nat) l = Ok m
            /\ In m l /\ (forall y, In y l -> y <= m).
Proof.
  apply (max_of_spec _ le); intros; try lia.
  - apply Nat.ltb_lt in H. lia.
  - apply Nat.ltb_ge in H. lia.
Qed.

Lemma max_of_Z (l : list Z) :
  l <> [] ->
  exists m, max_of (fun a b => (b <? a)%Z) l = Ok m
            /\ In m l /\ (forall y, In y l -> (y <= m)%Z).
Proof.
  apply (max_of_spec _ Z.le); intros; try lia.
Qed.

End PyFacts.

(** ** The waveform reducer *)

Module WaveformFacts.
Import Py Waveform.

(** How many bins hold the count [c]. *)
Definition occ (bins : list Z) (c : Z) : nat := count_occ Z.eq_dec bins c.

Lemma Counter_fold_lookup (l : list Z) (c : gmap Z nat) (k : Z) :
  foldl (fun c v => <[v := S (default O (c !! v))]> c) c l !! k
  = match occ l k with
    | O => c !! k
    | S n => Some (S n + default O (c !! k))
    end.
Proof.
  revert c. induction l as [|v l IH]; intros c; [reflexivity|].
  simpl. rewrite IH. unfold occ. simpl.
  destruct (Z.eq_dec v k) as [->|Hne].
  - rewrite lookup_insert_eq. simpl.
    destruct (count_occ Z.eq_dec l k); f_equal; lia.
  - now rewrite lookup_insert_ne by assumption.
Qed.

Lemma Counter_lookup (l : list Z) (k : Z) (v : nat) :
  Counter l !! k = Some v <-> v = occ l k /\ 0 < v.
Proof.
  unfold Counter. rewrite Counter_fold_lookup, lookup_empty. simpl.
  destruct (occ l k) as [|n].
  - split; [discriminate | lia].
  - rewrite Nat.add_0_r. split; [intros [= <-]; lia | intros [-> _]; reflexivity].
Qed.

Lemma Counter_items (l : list Z) (k : Z) (v : nat) :
  In (k, v) (map_to_list (Counter l)) <-> v = occ l k /\ 0 < v.
Proof.
  rewrite <- list_elem_of_In, elem_of_map_to_list. apply Counter_lookup.
Qed.

Lemma occ_pos (l : list Z) (k : Z) : 0 < occ l k <-> In k l.
Proof. unfold occ. symmetry. apply count_occ_In. Qed.

(** Dropping the empty bins keeps the frequency of every positive count. *)
Lemma occ_non_zero (bins : list Z) (c : Z) :
  (0 < c)%Z -> occ (List.filter (fun c => (0 <? c)%Z) bins) c = occ bins c.
Proof.
  intros Hc. unfold occ. induction bins as [|b bins IH]; [reflexivity|].
  simpl. destruct (0 <? b)%Z eqn:E; simpl; destruct (Z.eq_dec b c); lia.
Qed.

Lemma non_zero_In (bins : list Z) (c : Z) :
  In c (List.filter (fun c => (0 <? c)%Z) bins) <-> In c bins /\ (0 < c)%Z.
Proof. rewrite List.filter_In. rewrite Z.ltb_lt. reflexivity. Qed.

(** [where_eq] lists exactly the indices of the bins that hold [c]. *)
Lemma where_eq_spec (bins : list Z) (c : Z) (i : nat) :
  In i (where_eq bins c) <-> bins !! i = Some c.
Proof.
  unfold where_eq. rewrite List.filter_In, in_seq. split.
  - intros [[_ Hi] Hc]. simpl in Hi.
    destruct (lookup_lt_is_Some_2 bins i Hi) as [b Hb].
    rewrite Hb in *. simpl in Hc. apply Z.eqb_eq in Hc. now subst.
  - intros Hb. split.
    + apply lookup_lt_Some in Hb. lia.
    + rewrite Hb. simpl. apply Z.eqb_refl.
Qed.

Lemma where_eq_nonempty (bins : list Z) (c : Z) : In c bins -> where_eq bins c <> [].
Proof.
  intros Hc. apply list_elem_of_In, list_elem_of_lookup in Hc. destruct Hc as [i Hi].
  apply where_eq_spec in Hi. intros E. rewrite E in Hi. exact Hi.
Qed.

(** ... and lists them in ascending order. *)
Lemma where_eq_sorted (bins : list Z) (c : Z) :
  StronglySorted lt (where_eq bins c).
Proof.
  unfold where_eq. generalize 0 as s. generalize (length bins) as n.
  induction n as [|n IH]; intros s; simpl; [constructor|].
  destruct (_ =? c)%Z.
  - constructor; [apply IH|]. apply Forall_forall. intros j Hj.
    apply list_elem_of_In, List.filter_In in Hj. destruct Hj as [Hj _].
    apply in_seq in Hj. lia.
  - apply IH.
Qed.

End WaveformFacts.

Module WaveformClaims.
Import Py Waveform WaveformFacts.

(** The modal non-zero count of a histogram: a positive count that no other
    positive count beats in frequency, and the highest among those that tie
    with it. *)
Definition is_modal_count (bins : list Z) (c : Z) : Prop :=
  (0 < c)%Z /\ In c bins
  /\ (forall c', (0 < c')%Z -> occ bins c' <= occ bins c)
  /\ (forall c', (0 < c')%Z -> occ bins c' = occ bins c -> (c' <= c)%Z).

Lemma is_modal_count_unique (bins : list Z) (c c' : Z) :
  is_modal_count bins c -> is_modal_count bins c' -> c = c'.
Proof.
  intros (Hc & _ & Hmax & Htie) (Hc' & _ & Hmax' & Htie').
  assert (E : occ bins c = occ bins c').
  { apply Nat.le_antisymm; auto. }
  apply Z.le_antisymm; [apply Htie' | apply Htie]; auto.
Qed.

(** What the function returns, on any array of integers. *)
Lemma find_pa_mean_cases (bins : list Z) :
  (List.filter (fun c => (0 <? c)%Z) bins = [] /\ find_pa_mean bins = Ok None)
  \/ (exists c, is_modal_count bins c
                /\ find_pa_mean bins = Ok (Some (np_median (where_eq bins c)))).
Proof.
  unfold find_pa_mean.
  destruct (List.filter (fun c => (0 <? c)%Z) bins) as [|n0 nz'] eqn:Enz; [now left|].
  right. rewrite <- Enz. set (nz := List.filter _ bins) in *.
  set (items := map_to_list (Counter nz)).
  assert (Hn0 : In n0 nz) by (rewrite Enz; now left).
  (* the highest frequency *)
  destruct (PyFacts.max_of_nat (map snd items)) as (mf & -> & Hmf & Hmax).
  { apply occ_pos in Hn0.
    assert (Hit : In (n0, occ nz n0) items) by now apply Counter_items.
    intros E. apply (in_map snd) in Hit. rewrite E in Hit. exact Hit. }
  simpl. apply in_map_iff in Hmf. destruct Hmf as ([c0 f0] & Hf0 & Hc0). simpl in Hf0. subst f0.
  (* the counts that reach it *)
  set (modes := map fst (List.filter (fun it => (it.2 =? mf)%nat) items)).
  assert (Hmodes : forall c, In c modes <-> mf = occ nz c /\ 0 < mf).
  { intros c. unfold modes. rewrite in_map_iff. split.
    - intros ([c1 f1] & <- & Hin). apply List.filter_In in Hin.
      destruct Hin as [Hin Hf]. simpl in *. apply Nat.eqb_eq in Hf. subst f1.
      now apply Counter_items.
    - intros H. exists (c, mf). split; [reflexivity|].
      apply List.filter_In. split; [now apply Counter_items | apply Nat.eqb_refl]. }
  destruct (PyFacts.max_of_Z modes) as (c & -> & Hc & Htop).
  { intros E. assert (Hin : In c0 modes) by (apply Hmodes; now apply Counter_items).
    rewrite E in Hin. exact Hin. }
  simpl. apply Hmodes in Hc. destruct Hc as [Hocc Hpos].
  assert (Hcnz : In c nz) by (apply occ_pos; lia).
  apply non_zero_In in Hcnz. destruct Hcnz as [Hcb Hc].
  assert (Hnz : forall c', (0 < c')%Z -> occ bins c' = occ nz c').
  { intros c' Hc'. symmetry. now apply occ_non_zero. }
  exists c. split.
  - split; [assumption|]. split; [assumption|]. split.
    + intros c' Hc'. rewrite (Hnz c' Hc'), (Hnz c Hc).
      destruct (occ nz c') as [|n] eqn:En; [lia|].
      rewrite <- Hocc. apply Hmax. apply in_map_iff. exists (c', S n). split; [reflexivity|].
      apply Counter_items. lia.
    + intros c' Hc'. rewrite (Hnz c' Hc'), (Hnz c Hc). intros E.
      apply Htop. apply Hmodes. lia.
  - destruct (where_eq bins c) eqn:Ew; [|reflexivity].
    now apply where_eq_nonempty in Hcb.
Qed.

Lemma even_middle (n : nat) :
  Nat.even n = true -> 0 < n -> (n - 1) / 2 = n / 2 - 1.
Proof.
  intros He Hn. apply Nat.even_spec in He. destruct He as [k ->].
  destruct k as [|k]; [lia|].
  replace (2 * S k - 1) with (1 + k * 2) by lia.
  replace (2 * S k) with (0 + S k * 2) by lia.
  rewrite !Nat.div_add by lia. simpl. lia.
Qed.

Lemma odd_middle (n : nat) : Nat.even n = false -> (n - 1) / 2 = n / 2.
Proof.
  intros Ho. rewrite <- Nat.negb_odd in Ho. apply negb_false_iff in Ho.
  apply Nat.odd_spec in Ho. destruct Ho as [k ->].
  replace (2 * k + 1 - 1) with (0 + k * 2) by lia.
  replace (2 * k + 1) with (1 + k * 2) by lia.
  now rewrite !Nat.div_add by lia.
Qed.

Lemma float_of_index (i : nat) :
  float_of_Z (Z.of_nat i) = PrimFloat.of_uint63 (Uint63.of_Z (Z.of_nat i)).
Proof.
  unfold float_of_Z. destruct (Z.ltb_spec (Z.of_nat i) 0); [lia | reflexivity].
Qed.

(** The result for the modal count [c], with the median written out.  The
    indices holding [c], in ascending order, are a list [idx]; [lo] and [hi]
    are its two middle items (one and the same item when the length is odd);
    the result is their mean as doubles, or the single middle item. *)
Lemma find_pa_mean_middle (bins : list Z) (c : Z) :
  is_modal_count bins c ->
  exists (idx : list nat) (lo hi : nat),
    StronglySorted lt idx
    /\ (forall i, In i idx <-> bins !! i = Some c)
    /\ idx !! ((length idx - 1) / 2) = Some lo
    /\ idx !! (length idx / 2) = Some hi
    /\ find_pa_mean bins
       = Ok (Some (if Nat.even (length idx)
                   then ((PrimFloat.of_uint63 (Uint63.of_Z (Z.of_nat lo))
                          + PrimFloat.of_uint63 (Uint63.of_Z (Z.of_nat hi))) / 2)%float
                   else (PrimFloat.of_uint63 (Uint63.of_Z (Z.of_nat hi)) / 1)%float)).
Proof.
  intros Hc.
  destruct (find_pa_mean_cases bins) as [[Hnz Hr]|(c' & Hc' & Hr)].
  { destruct Hc as (Hpos & Hin & _).
    assert (H : In c (List.filter (fun c => (0 <? c)%Z) bins))
      by (apply non_zero_In; now split).
    rewrite Hnz in H. destruct H. }
  rewrite <- (is_modal_count_unique bins c c' Hc Hc') in Hr. clear c' Hc'.
  set (idx := where_eq bins c) in *.
  assert (Hlen : 0 < length idx).
  { destruct idx eqn:E; [|simpl; lia].
    destruct Hc as (_ & Hin & _). now apply where_eq_nonempty in Hin. }
  assert (Hmid : length idx / 2 < length idx) by (apply Nat.div_lt; lia).
  assert (Hlow : (length idx - 1) / 2 <= length idx / 2)
    by (apply Nat.Div0.div_le_mono; lia).
  destruct (lookup_lt_is_Some_2 idx ((length idx - 1) / 2)) as [lo Hlo]; [lia|].
  destruct (lookup_lt_is_Some_2 idx (length idx / 2)) as [hi Hhi]; [lia|].
  exists idx, lo, hi.
  split; [apply where_eq_sorted|]. split; [apply where_eq_spec|].
  split; [exact Hlo|]. split; [exact Hhi|].
  rewrite Hr. unfold np_median. fold idx.
  destruct (Nat.even (length idx)) eqn:He.
  - rewrite <- (even_middle _ He Hlen), Hlo, Hhi. cbn [default from_option id].
    now rewrite !float_of_index.
  - rewrite Hhi. cbn [default from_option id]. now rewrite float_of_index.
Qed.

(** C8: on a histogram of non-negative counts, [find_pa_mean] never raises;
    it returns [None] exactly when every bin is zero; otherwise the
    histogram has a modal non-zero count (the most frequent positive count,
    the highest one among equally frequent ones) and the function returns
    the median of the indices of the bins that hold that count: with those
    indices listed in ascending order, the middle one when their number is
    odd, the mean of the two middle ones when it is even. *)
Theorem find_pa_mean_spec (bins : list Z) :
  Forall (fun c => (0 <= c)%Z) bins ->
  (find_pa_mean bins = Ok None <-> Forall (fun c => c = 0%Z) bins)
  /\ (find_pa_mean bins = Ok None \/ exists c, is_modal_count bins c)
  /\ (forall c, is_modal_count bins c ->
        exists (idx : list nat) (lo hi : nat),
          StronglySorted lt idx
          /\ (forall i, In i idx <-> bins !! i = Some c)
          /\ idx !! ((length idx - 1) / 2) = Some lo
          /\ idx !! (length idx / 2) = Some hi
          /\ find_pa_mean bins
             = Ok (Some (if Nat.even (length idx)
                         then ((PrimFloat.of_uint63 (Uint63.of_Z (Z.of_nat lo))
                                + PrimFloat.of_uint63 (Uint63.of_Z (Z.of_nat hi)))
                               / 2)%float
                         else (PrimFloat.of_uint63 (Uint63.of_Z (Z.of_nat hi))
                               / 1)%float))).
Proof.
  intros Hnn. split; [|split]; [| |apply find_pa_mean_middle].
  all: destruct (find_pa_mean_cases bins) as [[Hnz Hr]|(c & Hc & Hr)].
  - assert (Hz : Forall (fun c => c = 0%Z) bins).
    { apply Forall_forall. intros b Hb.
      assert (Hb0 := proj1 (Forall_forall _ _) Hnn b Hb). simpl in Hb0.
      destruct (Z.eq_dec b 0%Z) as [|Hne]; [assumption|].
      assert (Hin : In b (List.filter (fun c => (0 <? c)%Z) bins)).
      { apply non_zero_In. split; [now apply list_elem_of_In | lia]. }
      rewrite Hnz in Hin. destruct Hin. }
    tauto.
  - rewrite Hr. split; [discriminate|]. intros Hz.
    destruct Hc as (Hc & Hin & _). apply list_elem_of_In in Hin.
    assert (E := proj1 (Forall_forall _ _) Hz c Hin). simpl in E. lia.
  - now left.
  - right. now exists c.
Qed.

Lemma find_pa_mean_spec_witness :
  Forall (fun c => (0 <= c)%Z) [0; 5; 2; 5; 2; 8; 8]%Z
  /\ (find_pa_mean [0; 5; 2; 5; 2; 8; 8]%Z = Ok None
      \/ exists c, is_modal_count [0; 5; 2; 5; 2; 8; 8]%Z c).
Proof.
  assert (H : Forall (fun c => (0 <= c)%Z) [0; 5; 2; 5; 2; 8; 8]%Z).
  { repeat constructor; lia. }
  split; [exact H|].
  exact (proj1 (proj2 (find_pa_mean_spec _ H))).
Defined.

(** The cases of [test_waveform_analyzer.py]. *)
Example test_standard_case :
  find_pa_mean [0; 10; 2; 8; 5; 0; 8; 1; 12]%Z = Ok (Some 4.5%float).
Proof. vm_compute. reflexivity. Qed.

Example test_mode_tie_breaking_highest_wins :
  find_pa_mean [0; 5; 2; 5; 2; 8; 8]%Z = Ok (Some 5.5%float).
Proof. vm_compute. reflexivity. Qed.

Example test_no_non_zero_bins : find_pa_mean [0; 0; 0; 0]%Z = Ok None.
Proof. reflexivity. Qed.

Example test_simple_waveform_round_default :
  analyze_waveform ample [(10.2, 0.0); (20.5, 0.2); (10.8, 0.4)]%float 0.1 "round"
  = Ok (<[10 := 1%Z]> (<[11 := 1%Z]> (<[20 := 1%Z]> (replicate 21 0%Z)))).
Proof. vm_compute. reflexivity. Qed.

Example test_waveform_with_blanking_round_default :
  analyze_waveform ample
    [(10.2, 0.0); (15.5, 0.05); (20.5, 0.1); (25.1, 0.15); (30.9, 0.2)]%float 0.1 "round"
  = Ok (<[10 := 1%Z]> (<[20 := 1%Z]> (<[31 := 1%Z]> (replicate 32 0%Z)))).
Proof. vm_compute. reflexivity. Qed.

Example test_simple_waveform_floor :
  analyze_waveform ample [(10.2, 0.0); (20.5, 0.2); (10.8, 0.4)]%float 0.1 "floor"
  = Ok (<[10 := 2%Z]> (<[20 := 1%Z]> (replicate 21 0%Z))).
Proof. vm_compute. reflexivity. Qed.

Example test_invalid_quantize_mode :
  analyze_waveform ample [(10.2, 0.0)]%float 0.1 "invalid"
  = Raise (ValueError "quantize_mode must be 'round' or 'floor'").
Proof. vm_compute. reflexivity. Qed.

Lemma visit_all_accepted blanking_time quantize_mode max_pressure st st' sample rest :
  visit blanking_time quantize_mode max_pressure st sample = Ok st' ->
  visit_all blanking_time quantize_mode max_pressure st (sample :: rest)
  = visit_all blanking_time quantize_mode max_pressure st' rest.
Proof. intros H. cbn [visit_all]. now rewrite H. Qed.

(** C10: a sample that passes the refractory gate and whose quantized
    pressure is negative leaves every bin as it was and still moves
    [last_time] to its own time; a sample that follows it by less than
    [blanking_time] is then skipped, so the loop goes on from the same bins
    with the dropped sample's time as the last accepted one. *)
Theorem dropped_sample_consumes_gate
    (blanking_time : float) (quantize_mode : string) (max_pressure : Z)
    (bins : list Z) (last_time pressure time : float) (pressure_int : Z)
    (pressure' time' : float) (rest : list (float * float)) :
  (blanking_time <=? time - last_time)%float = true ->
  quantize quantize_mode pressure = Ok pressure_int ->
  (pressure_int < 0)%Z ->
  (blanking_time <=? time' - time)%float = false ->
  visit blanking_time quantize_mode max_pressure (bins, last_time) (pressure, time)
  = Ok (bins, time)
  /\ visit blanking_time quantize_mode max_pressure (bins, time) (pressure', time')
     = Ok (bins, time)
  /\ visit_all blanking_time quantize_mode max_pressure (bins, last_time)
       ((pressure, time) :: (pressure', time') :: rest)
     = visit_all blanking_time quantize_mode max_pressure (bins, time) rest.
Proof.
  intros Hgate Hq Hneg Hnext.
  assert (H1 : visit blanking_time quantize_mode max_pressure (bins, last_time)
                 (pressure, time) = Ok (bins, time)).
  { unfold visit. rewrite Hgate, Hq. simpl.
    replace (0 <=? pressure_int)%Z with false by (symmetry; apply Z.leb_gt; lia).
    reflexivity. }
  assert (H2 : visit blanking_time quantize_mode max_pressure (bins, time)
                 (pressure', time') = Ok (bins, time)).
  { unfold visit. now rewrite Hnext. }
  split; [exact H1|]. split; [exact H2|].
  rewrite (visit_all_accepted _ _ _ _ _ _ _ H1).
  now rewrite (visit_all_accepted _ _ _ _ _ _ _ H2).
Qed.

Lemma dropped_sample_consumes_gate_witness :
  visit_all 0.1 "round" 8 (replicate 8 0%Z, (- 0.1)%float)
    [(-3.2, 0.0); (5.0, 0.05); (7.0, 0.3)]%float
  = visit_all 0.1 "round" 8 (replicate 8 0%Z, 0.0%float) [(7.0, 0.3)%float].
Proof.
  apply (dropped_sample_consumes_gate 0.1 "round" 8 (replicate 8 0%Z) (- 0.1)%float
           (-3.2)%float 0.0%float (-3)%Z 5.0%float 0.05%float [(7.0, 0.3)%float]);
    [vm_compute; reflexivity | vm_compute; reflexivity | lia | vm_compute; reflexivity].
Defined.

(** The same three samples through the whole function: the accepted
    pressure [5.0] is lost, only bin 7 is counted. *)
Example dropped_sample_hides_next :
  analyze_waveform ample [(-3.2, 0.0); (5.0, 0.05); (7.0, 0.3)]%float 0.1 "round"
  = Ok (<[7 := 1%Z]> (replicate 8 0%Z)).
Proof. vm_compute. reflexivity. Qed.

End WaveformClaims.

(** * Further properties of the code *)


(** ** The drift detector: shape, causality, tuning and NaN *)

Module DriftExtras.
Import Drift DriftLoop.

Lemma filter_keep_all {A} (f : A -> bool) (l : list A) :
  (forall a, In a l -> f a = true) -> List.filter f l = l.
Proof.
  induction l as [|a l IH]; intros H; [reflexivity|]. simpl.
  rewrite (H a (or_introl eq_refl)). f_equal. apply IH. intros b Hb. apply H. now right.
Qed.

Lemma filter_drop_all {A} (f : A -> bool) (l : list A) :
  (forall a, In a l -> f a = false) -> List.filter f l = [].
Proof.
  induction l as [|a l IH]; intros H; [reflexivity|]. simpl.
  rewrite (H a (or_introl eq_refl)). apply IH. intros b Hb. apply H. now right.
Qed.

Lemma filter_seq_sorted (f : nat -> bool) (s n : nat) :
  StronglySorted lt (List.filter f (seq s n)).
Proof.
  revert s. induction n as [|n IH]; intros s; simpl; [constructor|].
  destruct (f s); [|apply IH].
  constructor; [apply IH|]. apply Forall_forall. intros j Hj.
  apply list_elem_of_In, List.filter_In in Hj. destruct Hj as [Hj _].
  apply in_seq in Hj. lia.
Qed.

(** X1: the four series have one entry per input sample, and every alarm
    is an index of the input. *)
Theorem output_shape (cfg : config) (x : list float) :
  let out := detect_drift_ewcusum cfg x in
  length (mu out) = length x /\ length (sigma out) = length x
  /\ length (S_plus out) = length x /\ length (S_minus out) = length x
  /\ length (alarms out) <= length x
  /\ (forall t, In t (alarms out) -> t < length x).
Proof.
  cbv zeta. split; [|split; [|split; [|split; [|split]]]].
  1-5: rewrite detect_closed_form; cbn [mu sigma S_plus S_minus alarms].
  1-4: now rewrite length_map, length_seq.
  - etransitivity; [apply List.filter_length_le|]. now rewrite length_seq.
  - intros t Ht. now apply out_alarm in Ht.
Qed.

(** X2: the alarm indices are returned in strictly increasing order (so
    none is repeated). *)
Theorem alarms_increasing (cfg : config) (x : list float) :
  StronglySorted lt (alarms (detect_drift_ewcusum cfg x)).
Proof. rewrite detect_closed_form. apply filter_seq_sorted. Qed.

(** X3: an index is an alarm exactly when it is an input index at or past
    [warmup] at which one of the accumulators, computed from the values
    stored at the previous index, exceeds [h]: no qualifying step is
    missed. *)
Theorem alarm_exactly_when (cfg : config) (x : list float) (t : nat) :
  let out := detect_drift_ewcusum cfg x in
  let r := (Py.at_ x t - Py.at_ (mu out) t)%float in
  let z := winsorize cfg (r / (Py.at_ (sigma out) t + 1e-12))%float in
  let sp := Py.max 0 (stored_prev (S_plus out) t + z - delta cfg / 2)%float in
  let sm := Py.max 0 (stored_prev (S_minus out) t - z - delta cfg / 2)%float in
  In t (alarms out)
  <-> t < length x /\ (warmup cfg <= Z.of_nat t)%Z
      /\ ((h cfg <? sp)%float = true \/ (h cfg <? sm)%float = true).
Proof.
  cbv zeta. rewrite (out_alarm cfg x t).
  set (out := detect_drift_ewcusum cfg x).
  split; intros [Ht H]; (split; [exact Ht|]); revert H.
  all: assert (Hmu : Py.at_ (mu out) t = mu_rec cfg x t)
         by (unfold Py.at_, out; now rewrite out_mu).
  all: assert (Hsig : Py.at_ (sigma out) t = sigma_rec cfg x t)
         by (unfold Py.at_, out; now rewrite out_sigma).
  all: rewrite Hmu, Hsig; unfold out;
       rewrite (out_prev_plus cfg x t Ht), (out_prev_minus cfg x t Ht);
       unfold alarm_at, alarm_test, cusum_plus, cusum_minus, z_rec, residual, k;
       rewrite andb_true_iff, orb_true_iff, Z.leb_le; tauto.
Qed.

(** *** The output at an index depends on the samples up to it only *)

Section Prefix.
Variable cfg : config.
Variables x y : list float.

Lemma at_app (t : nat) : t < length x -> Py.at_ (x ++ y) t = Py.at_ x t.
Proof. intros Ht. unfold Py.at_. now rewrite lookup_app_l. Qed.

Lemma mu_rec_app (t : nat) : t < length x -> mu_rec cfg (x ++ y) t = mu_rec cfg x t.
Proof.
  induction t as [|t IH]; intros Ht; simpl.
  - now rewrite at_app.
  - rewrite IH by lia. now rewrite at_app.
Qed.

Lemma residual_app (t : nat) :
  t < length x -> residual cfg (x ++ y) t = residual cfg x t.
Proof. intros Ht. unfold residual. now rewrite at_app, mu_rec_app. Qed.

Lemma v_rec_app (t : nat) : t < length x -> v_rec cfg (x ++ y) t = v_rec cfg x t.
Proof.
  induction t as [|t IH]; intros Ht; simpl.
  - now rewrite residual_app.
  - rewrite IH by lia. now rewrite residual_app.
Qed.

Lemma sigma_rec_app (t : nat) :
  t < length x -> sigma_rec cfg (x ++ y) t = sigma_rec cfg x t.
Proof. intros Ht. unfold sigma_rec, v_floored. now rewrite v_rec_app. Qed.

Lemma z_rec_app (t : nat) : t < length x -> z_rec cfg (x ++ y) t = z_rec cfg x t.
Proof. intros Ht. unfold z_rec. now rewrite residual_app, sigma_rec_app. Qed.

Lemma rearm_app (t : nat) (prev : float * float) :
  t < length x -> rearm cfg (x ++ y) t prev = rearm cfg x t prev.
Proof. intros Ht. unfold rearm, cusum_plus, cusum_minus. now rewrite z_rec_app. Qed.

Lemma acc_rec_app (t : nat) : t < length x -> acc_rec cfg (x ++ y) t = acc_rec cfg x t.
Proof.
  induction t as [|t IH]; intros Ht.
  - rewrite !acc_rec_unfold. now apply rearm_app.
  - rewrite !acc_rec_unfold. simpl. rewrite IH by lia. now apply rearm_app.
Qed.

Lemma alarm_at_app (t : nat) :
  t < length x -> alarm_at cfg (x ++ y) t = alarm_at cfg x t.
Proof.
  intros Ht. unfold alarm_at, cusum_plus, cusum_minus. rewrite z_rec_app by assumption.
  destruct t as [|t]; simpl; [reflexivity|]. now rewrite acc_rec_app by lia.
Qed.

Lemma take_map_seq {A} (f g : nat -> A) (n m : nat) :
  (forall t, t < n -> f t = g t) ->
  take n (map f (seq 0 (n + m))) = map g (seq 0 n).
Proof.
  intros H. rewrite seq_app, map_app.
  rewrite take_app_length' by now rewrite length_map, length_seq.
  apply map_ext_in. intros t Ht. apply H. apply in_seq in Ht. lia.
Qed.

End Prefix.

(** X4: the detector is causal.  The series computed on [x ++ y], cut to
    the length of [x], are the series computed on [x] alone, and the alarms
    on [x ++ y] that fall inside [x] are the alarms on [x]: appending
    samples never changes what was reported for the earlier ones. *)
Theorem earlier_output_is_final (cfg : config) (x y : list float) :
  let out := detect_drift_ewcusum cfg x in
  let out' := detect_drift_ewcusum cfg (x ++ y) in
  take (length x) (mu out') = mu out
  /\ take (length x) (sigma out') = sigma out
  /\ take (length x) (S_plus out') = S_plus out
  /\ take (length x) (S_minus out') = S_minus out
  /\ List.filter (fun t => t <? length x) (alarms out') = alarms out.
Proof.
  cbv zeta. rewrite !detect_closed_form. cbv zeta.
  cbn [mu sigma S_plus S_minus alarms]. rewrite length_app.
  split; [|split; [|split; [|split]]].
  - apply take_map_seq. intros. now apply mu_rec_app.
  - apply take_map_seq. intros. now apply sigma_rec_app.
  - apply take_map_seq. intros. now rewrite acc_rec_app.
  - apply take_map_seq. intros. now rewrite acc_rec_app.
  - rewrite seq_app, !List.filter_app. simpl.
    rewrite (filter_drop_all _ (List.filter _ (seq (length x) (length y)))).
    + rewrite app_nil_r. rewrite filter_keep_all.
      * apply List.filter_ext_in. intros t Ht. apply in_seq in Ht.
        apply alarm_at_app. lia.
      * intros t Ht. apply List.filter_In in Ht. destruct Ht as [Ht _].
        apply in_seq in Ht. apply Nat.ltb_lt. lia.
    + intros t Ht. apply List.filter_In in Ht. destruct Ht as [Ht _].
      apply in_seq in Ht. apply Nat.ltb_ge. lia.
Qed.

(** *** The baseline and the scale do not depend on the CUSUM tuning *)

Section Tuning.
Variables cfg cfg' : config.
Variable x : list float.
Hypothesis same_baseline : alpha_baseline cfg = alpha_baseline cfg'.
Hypothesis same_var : alpha_var cfg = alpha_var cfg'.

Lemma mu_rec_tuning (t : nat) : mu_rec cfg x t = mu_rec cfg' x t.
Proof.
  induction t as [|t IH]; simpl; rewrite ?IH, same_baseline; reflexivity.
Qed.

Lemma v_rec_tuning (t : nat) : v_rec cfg x t = v_rec cfg' x t.
Proof.
  induction t as [|t IH]; simpl; unfold residual;
    rewrite ?IH, mu_rec_tuning, same_var; reflexivity.
Qed.

End Tuning.

(** X5: two configurations with the same [alpha_baseline] and [alpha_var]
    give the same [mu] and [sigma] series, whatever their [delta], [h],
    [warmup] and [clip_z]. *)
Theorem tuning_leaves_baseline (cfg cfg' : config) (x : list float) :
  alpha_baseline cfg = alpha_baseline cfg' ->
  alpha_var cfg = alpha_var cfg' ->
  mu (detect_drift_ewcusum cfg x) = mu (detect_drift_ewcusum cfg' x)
  /\ sigma (detect_drift_ewcusum cfg x) = sigma (detect_drift_ewcusum cfg' x).
Proof.
  intros Hb Hv. rewrite !detect_closed_form. cbn [mu sigma]. split.
  - apply map_ext. intros t. now apply mu_rec_tuning.
  - apply map_ext. intros t. unfold sigma_rec, v_floored.
    now rewrite (v_rec_tuning cfg cfg' x Hb Hv).
Qed.

(** A short series and a configuration with no warm-up and a low
    threshold, to instantiate the statements. *)
Definition series : list float := [5.0; 5.1; 4.9; 7.0; 7.2]%float.

Definition low_threshold : config :=
  Config 0.01 0.05 0.25 1.0 0 (Some 6.0%float).

Lemma tuning_leaves_baseline_witness :
  mu (detect_drift_ewcusum default_config series)
  = mu (detect_drift_ewcusum low_threshold series).
Proof.
  exact (proj1 (tuning_leaves_baseline default_config low_threshold
                  series eq_refl eq_refl)).
Defined.

(** X6: when [clip_z] is a bound [c] with [-c <= c], the winsorized
    residual of a number lies in [[-c, c]]. *)
Theorem winsorize_bounds (cfg : config) (c z : float) :
  clip_z cfg = Some c ->
  (- c <=? c)%float = true ->
  is_nan z = false ->
  (- c <=? winsorize cfg z)%float = true /\ (winsorize cfg z <=? c)%float = true.
Proof.
  intros Hc Hle Hz. unfold winsorize. rewrite Hc.
  destruct (NaNFacts.leb_not_nan _ _ Hle) as [Hlo Hhi].
  unfold Py.np_clip, Py.np_maximum. rewrite Hz, Hlo. simpl.
  set (m := if (z <? - c)%float then (- c)%float else z).
  assert (Hm : is_nan m = false) by (unfold m; now destruct (z <? - c)%float).
  assert (Hlm : (- c <=? m)%float = true).
  { unfold m. destruct (z <? - c)%float eqn:E.
    - now apply NaNFacts.leb_refl.
    - now apply FloatFacts.not_ltb_leb. }
  unfold Py.np_minimum. rewrite Hhi, Hm. simpl.
  destruct (m <? c)%float eqn:E.
  - split; [exact Hlm | now apply FloatFacts.ltb_leb].
  - split; [exact Hle | now apply NaNFacts.leb_refl].
Qed.

Lemma winsorize_bounds_witness :
  (- 6 <=? winsorize default_config 250)%float = true
  /\ (winsorize default_config 250 <=? 6)%float = true.
Proof.
  apply (winsorize_bounds default_config 6 250); reflexivity.
Defined.

(** *** A NaN sample *)

Section NaNSample.
Variable cfg : config.
Variable x : list float.
Variable j : nat.
Hypothesis x_j_nan : x !! j = Some nan.

Lemma at_j_nan : Py.at_ x j = nan.
Proof. unfold Py.at_. now rewrite x_j_nan. Qed.

Lemma mu_rec_nan (t : nat) : j <= t -> mu_rec cfg x t = nan.
Proof.
  induction t as [|t IH]; intros Ht.
  - assert (E : 0 = j) by lia. simpl. rewrite E.
    now rewrite at_j_nan, !NaNFacts.mul_nan_r, NaNFacts.add_nan_r.
  - destruct (Nat.eq_dec j (S t)) as [E|E].
    + simpl. rewrite <- E. now rewrite at_j_nan, NaNFacts.mul_nan_r, NaNFacts.add_nan_r.
    + simpl. rewrite IH by lia. now rewrite NaNFacts.mul_nan_r, NaNFacts.add_nan_l.
Qed.

Lemma residual_nan (t : nat) : j <= t -> residual cfg x t = nan.
Proof. intros Ht. unfold residual. now rewrite mu_rec_nan, NaNFacts.sub_nan_r. Qed.

Lemma v_rec_nan (t : nat) : j <= t -> v_rec cfg x t = nan.
Proof.
  intros Ht. destruct t; simpl; rewrite residual_nan by assumption;
    now rewrite !NaNFacts.mul_nan_r, NaNFacts.add_nan_r.
Qed.

Lemma sigma_rec_nan (t : nat) : j <= t -> sigma_rec cfg x t = nan.
Proof.
  intros Ht. unfold sigma_rec, v_floored, Py.max.
  now rewrite v_rec_nan, NaNFacts.ltb_nan_l.
Qed.

Lemma winsorize_nan : winsorize cfg nan = nan.
Proof.
  unfold winsorize. destruct (clip_z cfg) as [c|]; [|reflexivity].
  unfold Py.np_clip, Py.np_maximum, Py.np_minimum. simpl.
  now rewrite orb_true_r.
Qed.

Lemma z_rec_nan (t : nat) : j <= t -> z_rec cfg x t = nan.
Proof.
  intros Ht. unfold z_rec. now rewrite residual_nan, NaNFacts.div_nan_l, winsorize_nan.
Qed.

Lemma cusum_nan (t : nat) (sp sm : float) :
  j <= t -> cusum_plus cfg x t sp = 0%float /\ cusum_minus cfg x t sm = 0%float.
Proof.
  intros Ht. unfold cusum_plus, cusum_minus, Py.max. rewrite z_rec_nan by assumption.
  now rewrite NaNFacts.add_nan_r, NaNFacts.sub_nan_r, !NaNFacts.sub_nan_l,
    NaNFacts.ltb_nan_r.
Qed.

Lemma acc_rec_nan (t : nat) : j <= t -> acc_rec cfg x t = (0%float, 0%float).
Proof.
  intros Ht. rewrite acc_rec_unfold. unfold rearm.
  destruct (cusum_nan t (acc_prev cfg x t).1 (acc_prev cfg x t).2 Ht) as [-> ->].
  now destruct (alarm_test cfg t 0 0).
Qed.

End NaNSample.

(** X7: a NaN sample is not rejected.  From its index on, [mu] and [sigma]
    are NaN and both stored accumulators are zero; with a threshold [h] that
    is not negative, no alarm is raised at or after it. *)
Theorem nan_sample_silences (cfg : config) (x : list float) (j t : nat) :
  x !! j = Some nan ->
  j <= t -> t < length x ->
  let out := detect_drift_ewcusum cfg x in
  mu out !! t = Some nan /\ sigma out !! t = Some nan
  /\ S_plus out !! t = Some 0%float /\ S_minus out !! t = Some 0%float
  /\ ((h cfg <? 0)%float = false -> ~ In t (alarms out)).
Proof.
  intros Hj Hjt Ht. cbv zeta.
  rewrite out_mu, out_sigma, out_S_plus, out_S_minus by assumption.
  rewrite (mu_rec_nan cfg x j Hj t Hjt), (sigma_rec_nan cfg x j Hj t Hjt),
    (acc_rec_nan cfg x j Hj t Hjt).
  repeat split. intros Hh Hin. apply out_alarm in Hin. destruct Hin as [_ Ha].
  unfold alarm_at in Ha.
  destruct (cusum_nan cfg x j Hj t (acc_prev cfg x t).1 (acc_prev cfg x t).2 Hjt)
    as [E1 E2].
  rewrite E1, E2 in Ha. unfold alarm_test in Ha. rewrite Hh in Ha.
  now rewrite andb_false_r in Ha.
Qed.

Lemma nan_sample_silences_witness :
  S_plus (detect_drift_ewcusum low_threshold [5.0; nan; 9.0; 1.0]%float) !! 3
  = Some 0%float.
Proof.
  exact (proj1 (proj2 (proj2
    (nan_sample_silences low_threshold [5.0; nan; 9.0; 1.0]%float 1 3
       eq_refl ltac:(lia) ltac:(simpl; lia))))).
Defined.

(** X8: no alarm is raised on a series that is not longer than [warmup],
    and none is raised at all when the threshold [h] is NaN. *)
Theorem no_alarm_configurations (cfg : config) (x : list float) :
  (Z.of_nat (length x) <= warmup cfg)%Z \/ is_nan (h cfg) = true ->
  alarms (detect_drift_ewcusum cfg x) = [].
Proof.
  intros H. rewrite detect_closed_form. cbn [alarms].
  apply filter_drop_all. intros t Ht. apply in_seq in Ht.
  unfold alarm_at, alarm_test. destruct H as [H|H].
  - replace (warmup cfg <=? Z.of_nat t)%Z with false; [reflexivity|].
    symmetry. apply Z.leb_gt. lia.
  - apply NaNFacts.is_nan_eq in H. rewrite H, !NaNFacts.ltb_nan_l.
    apply andb_false_r.
Qed.

Lemma no_alarm_configurations_witness :
  alarms (detect_drift_ewcusum default_config series) = [].
Proof.
  apply (no_alarm_configurations default_config series). left. simpl. lia.
Defined.

End DriftExtras.

(** ** The outlier screen: the fallback level and NaN *)

Module ScreenExtras.
Import Py Screen.

(** X9: without SciPy the significance level is read only through the test
    [alpha == 0.01]: any two levels that both differ from [0.01] give the
    same interval, p-value and flag (the 95% ones). *)
Theorem fallback_ignores_level (erf : float -> float) (baseline : list float)
    (x_new alpha alpha' : float) :
  (alpha =? 0.01)%float = false ->
  (alpha' =? 0.01)%float = false ->
  t_prediction_test None erf baseline x_new alpha
  = t_prediction_test None erf baseline x_new alpha'.
Proof.
  intros H H'. unfold t_prediction_test. now rewrite H, H'.
Qed.

Lemma fallback_ignores_level_witness :
  t_prediction_test None (fun _ => 1%float) [10; 11; 9; 10]%float 12 0.001
  = t_prediction_test None (fun _ => 1%float) [10; 11; 9; 10]%float 12 0.05.
Proof.
  apply (fallback_ignores_level (fun _ => 1%float) [10; 11; 9; 10]%float 12 0.001 0.05);
    reflexivity.
Defined.

Lemma foldl_add_nan (l : list float) : foldl PrimFloat.add nan l = nan.
Proof.
  induction l as [|b l IH]; [reflexivity|]. simpl. now rewrite NaNFacts.add_nan_l.
Qed.

Lemma foldl_add_In_nan (l : list float) (a : float) :
  In nan l -> foldl PrimFloat.add a l = nan.
Proof.
  revert a. induction l as [|b l IH]; intros a []; simpl.
  - subst b. rewrite NaNFacts.add_nan_r. apply foldl_add_nan.
  - now apply IH.
Qed.

Lemma seq_sum_nan (l : list float) : In nan l -> seq_sum l = nan.
Proof.
  destruct l as [|a l]; intros []; simpl.
  - subst a. apply foldl_add_nan.
  - now apply foldl_add_In_nan.
Qed.

(** One of the eight running sums is NaN. *)
Definition nan8 (r : acc8) : Prop :=
  r0 r = nan \/ r1 r = nan \/ r2 r = nan \/ r3 r = nan
  \/ r4 r = nan \/ r5 r = nan \/ r6 r = nan \/ r7 r = nan.

Ltac absorb_nan :=
  repeat (rewrite NaNFacts.add_nan_l || rewrite NaNFacts.add_nan_r).

Lemma tree8_nan (r : acc8) : nan8 r -> tree8 r = nan.
Proof.
  unfold nan8, tree8. intros H.
  repeat (destruct H as [H|H]; [rewrite H; absorb_nan; reflexivity|]).
  rewrite H. absorb_nan. reflexivity.
Qed.

Lemma unrolled_nan (n : nat) :
  forall (a : list float) (r : acc8),
  length a <= n ->
  nan8 r \/ In nan a ->
  nan8 (unrolled r a).1 \/ In nan (unrolled r a).2.
Proof.
  induction n as [|n IH]; intros a r Hlen H;
    destruct a as [|a0 [|a1 [|a2 [|a3 [|a4 [|a5 [|a6 [|a7 rest]]]]]]]];
    try exact H; simpl in Hlen; try lia.
  cbn [unrolled]. apply IH; [lia|].
  destruct H as [H|H].
  - left. unfold nan8 in *. cbn [r0 r1 r2 r3 r4 r5 r6 r7].
    repeat (destruct H as [H|H]; [rewrite H; absorb_nan; tauto|]).
    rewrite H. absorb_nan. tauto.
  - unfold nan8. cbn [r0 r1 r2 r3 r4 r5 r6 r7].
    repeat (destruct H as [H|H]; [rewrite H; absorb_nan; tauto|]).
    now right.
Qed.

Lemma block_sum_nan (l : list float) : In nan l -> block_sum l = nan.
Proof.
  intros H. unfold block_sum.
  destruct l as [|a0 [|a1 [|a2 [|a3 [|a4 [|a5 [|a6 [|a7 rest]]]]]]]];
    try (now apply seq_sum_nan).
  assert (Hr : nan8 (Acc8 a0 a1 a2 a3 a4 a5 a6 a7) \/ In nan rest).
  { unfold nan8. cbn [r0 r1 r2 r3 r4 r5 r6 r7]. simpl in H. tauto. }
  apply (unrolled_nan (length rest) rest _ (le_n _)) in Hr.
  destruct (unrolled _ rest) as [r tail]. simpl in Hr. destruct Hr as [Hr|Hr].
  - rewrite (tree8_nan r Hr). apply foldl_add_nan.
  - now apply foldl_add_In_nan.
Qed.

Lemma pairwise_sum_nan (fuel : nat) :
  forall l : list float, In nan l -> pairwise_sum fuel l = nan.
Proof.
  induction fuel as [|fuel IH]; intros l H; cbn [pairwise_sum];
    [now apply block_sum_nan|].
  destruct (128 <? length l)%nat; [|now apply block_sum_nan].
  cbv zeta. set (n2 := (length l / 2 - (length l / 2) mod 8)%nat).
  rewrite <- (take_drop n2 l) in H. apply in_app_or in H.
  destruct H as [H|H]; rewrite (IH _ H).
  - apply NaNFacts.add_nan_l.
  - apply NaNFacts.add_nan_r.
Qed.

Lemma np_sum_nan (l : list float) : In nan l -> np_sum l = nan.
Proof. apply pairwise_sum_nan. Qed.

Lemma np_mean_nan (l : list float) : In nan l -> np_mean l = nan.
Proof.
  intros H. unfold np_mean. now rewrite np_sum_nan, NaNFacts.div_nan_l.
Qed.

(** X10: a NaN is not reported.  With two or more baseline points, a NaN
    candidate, or a NaN anywhere in the baseline, gives a result whose
    outlier flag is false, with SciPy or without. *)
Theorem nan_is_never_flagged (scipy_t : option t_dist) (erf : float -> float)
    (baseline : list float) (x_new alpha : float) :
  2 <= length baseline ->
  x_new = nan \/ In nan baseline ->
  exists v,
    t_prediction_test scipy_t erf baseline x_new alpha = Ok v /\ outlier v = false.
Proof.
  intros Hn Hnan. unfold t_prediction_test.
  apply Nat.ltb_ge in Hn. rewrite Hn.
  destruct scipy_t as [t|]; eexists; (split; [reflexivity|]); simpl;
    (destruct Hnan as [-> | Hin];
     [ now rewrite NaNFacts.ltb_nan_l, NaNFacts.ltb_nan_r
     | now rewrite (np_mean_nan baseline Hin), NaNFacts.sub_nan_l, NaNFacts.add_nan_l,
         NaNFacts.ltb_nan_l, NaNFacts.ltb_nan_r ]).
Qed.

Lemma nan_is_never_flagged_witness :
  exists v,
    t_prediction_test None (fun _ => 1%float) [10; nan; 10]%float 50 0.01 = Ok v
    /\ outlier v = false.
Proof.
  apply (nan_is_never_flagged None (fun _ => 1%float) [10; nan; 10]%float 50 0.01).
  - simpl. lia.
  - right. simpl. auto.
Defined.

End ScreenExtras.

(** ** The waveform reducer: the loop's invariants and the two stages *)

Module WaveformExtras.
Import Py Waveform WaveformFacts.

(** The number of samples counted in a histogram. *)
Definition total (bins : list Z) : Z := foldr Z.add 0%Z bins.

Lemma total_insert (bins : list Z) (i : nat) (v : Z) :
  i < length bins ->
  total (<[i := v]> bins) = (total bins - default 0 (bins !! i) + v)%Z.
Proof.
  revert i. induction bins as [|b bins IH]; intros i Hi; [simpl in Hi; lia|].
  destruct i as [|i]; simpl.
  - lia.
  - change (foldr Z.add 0%Z (<[i:=v]> bins)) with (total (<[i:=v]> bins)).
    rewrite IH by (simpl in Hi; lia). unfold total. lia.
Qed.

Lemma total_replicate (n : nat) : total (replicate n 0%Z) = 0%Z.
Proof. induction n as [|n IH]; [reflexivity|]. simpl. exact IH. Qed.

Lemma total_zero (bins : list Z) :
  Forall (fun c => (0 <= c)%Z) bins ->
  total bins = 0%Z -> Forall (fun c => c = 0%Z) bins.
Proof.
  induction 1 as [|b bins Hb Hbins IH]; intros Ht; [constructor|].
  simpl in Ht. fold (total bins) in Ht.
  assert (0 <= total bins)%Z.
  { clear -Hbins. induction Hbins; simpl; [lia|]. fold (total l). lia. }
  constructor; [lia | apply IH; lia].
Qed.

Section Loop.
Variable blanking_time : float.
Variable quantize_mode : string.
Variable max_pressure : Z.

(** What one iteration keeps: the shape and sign of the bins, and at most
    one more count. *)
Record kept (bins bins' : list Z) (extra : Z) : Prop := Kept {
  kept_length : length bins' = length bins;
  kept_nonneg : Forall (fun c => (0 <= c)%Z) bins -> Forall (fun c => (0 <= c)%Z) bins';
  kept_total : (total bins <= total bins' <= total bins + extra)%Z
}.

Lemma visit_kept (bins bins' : list Z) (last_time last_time' : float)
    (sample : float * float) :
  visit blanking_time quantize_mode max_pressure (bins, last_time) sample
  = Ok (bins', last_time') ->
  Forall (fun c => (0 <= c)%Z) bins -> kept bins bins' 1.
Proof.
  destruct sample as [pressure time]. unfold visit.
  destruct (blanking_time <=? time - last_time)%float.
  2: { intros [= <- <-] _. split; auto; lia. }
  destruct (quantize quantize_mode pressure) as [pressure_int|e]; simpl; [|discriminate].
  destruct ((0 <=? pressure_int) && (pressure_int <? max_pressure))%Z.
  2: { intros [= <- <-] _. split; auto; lia. }
  intros [= <- <-] Hnn. set (i := Z.to_nat pressure_int). split.
  - apply length_insert.
  - intros _. destruct (bins !! i) as [b|] eqn:Eb; simpl.
    + apply Forall_insert; [assumption|].
      assert (0 <= b)%Z by exact (proj1 (Forall_lookup _ _) Hnn i b Eb). lia.
    + apply Forall_insert; [assumption | lia].
  - destruct (Nat.lt_ge_cases i (length bins)) as [Hi|Hi].
    + rewrite total_insert by assumption. lia.
    + rewrite list_insert_ge by assumption. lia.
Qed.

Lemma visit_all_kept (waveform : list (float * float)) :
  forall (bins bins' : list Z) (last_time last_time' : float),
  visit_all blanking_time quantize_mode max_pressure (bins, last_time) waveform
  = Ok (bins', last_time') ->
  Forall (fun c => (0 <= c)%Z) bins ->
  kept bins bins' (Z.of_nat (length waveform)).
Proof.
  induction waveform as [|sample rest IH]; intros bins bins' last_time last_time'.
  - intros [= <- <-] _. split; auto; simpl; lia.
  - cbn [visit_all].
    destruct (visit _ _ _ (bins, last_time) sample) as [[bins1 last1]|e] eqn:E;
      simpl; [|discriminate].
    intros Hrest Hnn.
    destruct (visit_kept _ _ _ _ _ E Hnn) as [L1 N1 T1].
    destruct (IH _ _ _ _ Hrest (N1 Hnn)) as [L2 N2 T2].
    split; [congruence | auto |]. simpl length. lia.
Qed.

(** With a mode that is neither ["round"] nor ["floor"], the loop raises at
    the first sample that passes the gate, and not before. *)
Lemma visit_all_unsupported (waveform : list (float * float)) (bins : list Z)
    (last_time : float) :
  String.eqb quantize_mode "round" = false ->
  String.eqb quantize_mode "floor" = false ->
  visit_all blanking_time quantize_mode max_pressure (bins, last_time) waveform
  = if existsb (fun s => (blanking_time <=? s.2 - last_time)%float) waveform
    then Raise (ValueError "quantize_mode must be 'round' or 'floor'")
    else Ok (bins, last_time).
Proof.
  intros Hr Hf. induction waveform as [|[pressure time] rest IH]; [reflexivity|].
  cbn [visit_all existsb]. unfold visit. simpl.
  destruct (blanking_time <=? time - last_time)%float; simpl.
  - unfold quantize. now rewrite Hr, Hf.
  - exact IH.
Qed.

(** A sample whose time is NaN never passes the gate. *)
Lemma visit_nan_time (st : list Z * float) (pressure : float) :
  visit blanking_time quantize_mode max_pressure st (pressure, nan) = Ok st.
Proof.
  destruct st as [bins last_time]. unfold visit.
  now rewrite NaNFacts.sub_nan_l, NaNFacts.leb_nan_r.
Qed.

End Loop.

Lemma analyze_waveform_cons (unallocatable : Z -> option exn) (s : float * float)
    (rest : list (float * float)) (blanking_time : float) (quantize_mode : string) :
  analyze_waveform unallocatable (s :: rest) blanking_time quantize_mode
  = (top ← max_of (fun a b => (b <? a)%float) (map fst (s :: rest));
     top_int ← (if String.eqb quantize_mode "round" then int_round top else int top);
     bins ← np_zeros unallocatable (top_int + 1);
     st ← visit_all blanking_time quantize_mode (top_int + 1)
            (bins, (- blanking_time)%float) (s :: rest);
     Ok st.1).
Proof. reflexivity. Qed.

Lemma analyze_waveform_kept (unallocatable : Z -> option exn)
    (waveform : list (float * float)) (blanking_time : float)
    (quantize_mode : string) (bins : list Z) :
  analyze_waveform unallocatable waveform blanking_time quantize_mode = Ok bins ->
  Forall (fun c => (0 <= c)%Z) bins
  /\ (0 <= total bins <= Z.of_nat (length waveform))%Z
  /\ (waveform <> [] ->
      exists top top_int,
        max_of (fun a b => (b <? a)%float) (map fst waveform) = Ok top
        /\ (if String.eqb quantize_mode "round" then int_round top else int top)
           = Ok top_int
        /\ (0 <= top_int + 1)%Z
        /\ length bins = Z.to_nat (top_int + 1)).
Proof.
  destruct waveform as [|s rest].
  { intros [= <-]. repeat split; simpl; try lia; [constructor | congruence]. }
  rewrite analyze_waveform_cons.
  destruct (max_of _ (map fst (s :: rest))) as [top|e] eqn:Etop; [|discriminate].
  cbn [mbind result_bind].
  destruct (if String.eqb quantize_mode "round" then int_round top else int top)
    as [top_int|e] eqn:Eint; [|discriminate].
  cbn [mbind result_bind]. unfold np_zeros.
  destruct (top_int + 1 <? 0)%Z eqn:Eneg; [discriminate|].
  destruct (unallocatable (top_int + 1)%Z) as [e|]; [discriminate|].
  cbn [mbind result_bind].
  destruct (visit_all _ _ _ _ (s :: rest)) as [[bins' last']|e] eqn:Eloop; [|discriminate].
  cbn [mbind result_bind fst]. intros [= <-].
  assert (Hz : Forall (fun c => (0 <= c)%Z) (replicate (Z.to_nat (top_int + 1)) 0%Z)).
  { apply Forall_replicate. lia. }
  destruct (visit_all_kept _ _ _ _ _ _ _ _ Eloop Hz) as [HL HN HT].
  rewrite total_replicate in HT. rewrite length_replicate in HL.
  split; [auto|]. split; [lia|]. intros _.
  exists top, top_int. repeat split; try assumption. apply Z.ltb_ge in Eneg. lia.
Qed.

(** X11: a returned histogram has one bin per integer from 0 to the
    quantized highest pressure, holds no negative count, and counts at most
    one per sample. *)
Theorem histogram_shape (unallocatable : Z -> option exn)
    (waveform : list (float * float)) (blanking_time : float)
    (quantize_mode : string) (bins : list Z) :
  analyze_waveform unallocatable waveform blanking_time quantize_mode = Ok bins ->
  Forall (fun c => (0 <= c)%Z) bins
  /\ (0 <= total bins <= Z.of_nat (length waveform))%Z
  /\ (waveform <> [] ->
      exists top top_int,
        max_of (fun a b => (b <? a)%float) (map fst waveform) = Ok top
        /\ (if String.eqb quantize_mode "round" then int_round top else int top)
           = Ok top_int
        /\ (0 <= top_int + 1)%Z
        /\ length bins = Z.to_nat (top_int + 1)).
Proof. apply analyze_waveform_kept. Qed.

Lemma histogram_shape_witness :
  Forall (fun c => (0 <= c)%Z)
    (<[10 := 2%Z]> (<[20 := 1%Z]> (replicate 21 0%Z))).
Proof.
  apply (histogram_shape ample [(10.2, 0.0); (20.5, 0.2); (10.8, 0.4)]%float 0.1 "floor").
  vm_compute. reflexivity.
Defined.

(** X12: with a mode other than ["round"] and ["floor"], once the array of
    bins is allocated the call raises the mode's [ValueError] exactly when
    some sample passes the gate against the initial [last_time]; when none
    does, the unsupported mode goes unreported and the zero histogram is
    returned.  When the array cannot be allocated, the allocation's error is
    raised instead, whatever the mode. *)
Theorem unsupported_mode_needs_accepted_sample (unallocatable : Z -> option exn)
    (waveform : list (float * float))
    (blanking_time : float) (quantize_mode : string) (top : float) (top_int : Z) :
  String.eqb quantize_mode "round" = false ->
  String.eqb quantize_mode "floor" = false ->
  waveform <> [] ->
  max_of (fun a b => (b <? a)%float) (map fst waveform) = Ok top ->
  int top = Ok top_int ->
  (0 <= top_int + 1)%Z ->
  analyze_waveform unallocatable waveform blanking_time quantize_mode
  = match unallocatable (top_int + 1)%Z with
    | Some e => Raise e
    | None =>
        if existsb (fun s => (blanking_time <=? s.2 - - blanking_time)%float) waveform
        then Raise (ValueError "quantize_mode must be 'round' or 'floor'")
        else Ok (replicate (Z.to_nat (top_int + 1)) 0%Z)
    end.
Proof.
  intros Hr Hf Hne Htop Hint Hpos.
  destruct waveform as [|s rest]; [congruence|].
  rewrite analyze_waveform_cons, Htop. cbn [mbind result_bind].
  rewrite Hr, Hint. cbn [mbind result_bind]. unfold np_zeros.
  replace (top_int + 1 <? 0)%Z with false by (symmetry; apply Z.ltb_ge; lia).
  destruct (unallocatable (top_int + 1)%Z) as [e|]; [reflexivity|].
  cbn [mbind result_bind].
  rewrite (visit_all_unsupported _ _ _ _ _ _ Hr Hf).
  now destruct (existsb _ (s :: rest)).
Qed.

Lemma unsupported_mode_needs_accepted_sample_witness :
  analyze_waveform ample [(10.2, -1.0)]%float 0.1 "invalid" = Ok (replicate 11 0%Z).
Proof.
  apply (unsupported_mode_needs_accepted_sample ample [(10.2, -1.0)]%float 0.1
           "invalid" 10.2%float 10%Z); try reflexivity; [discriminate | lia].
Defined.

(** X13: samples whose time is NaN are skipped without error: removing
    them from the waveform does not change what the loop returns. *)
Theorem nan_times_are_skipped (blanking_time : float) (quantize_mode : string)
    (max_pressure : Z) (waveform : list (float * float)) (st : list Z * float) :
  visit_all blanking_time quantize_mode max_pressure st
    (List.filter (fun s => negb (is_nan s.2)) waveform)
  = visit_all blanking_time quantize_mode max_pressure st waveform.
Proof.
  revert st. induction waveform as [|[pressure time] rest IH]; intros st; [reflexivity|].
  cbn [List.filter snd]. destruct (is_nan time) eqn:E; cbn [negb].
  - apply NaNFacts.is_nan_eq in E. subst time.
    cbn [visit_all]. rewrite visit_nan_time. cbn [mbind result_bind]. apply IH.
  - cbn [visit_all].
    destruct (visit _ _ _ st (pressure, time)) as [st'|e]; cbn [mbind result_bind];
      [apply IH | reflexivity].
Qed.

Lemma find_pa_mean_modal (bins : list Z) (c : Z) :
  WaveformClaims.is_modal_count bins c ->
  find_pa_mean bins = Ok (Some (np_median (where_eq bins c))).
Proof.
  intros Hc.
  destruct (WaveformClaims.find_pa_mean_cases bins) as [[Hnz Hr]|(c' & Hc' & Hr)].
  - destruct Hc as (Hpos & Hin & _).
    assert (H : In c (List.filter (fun c => (0 <? c)%Z) bins))
      by (apply non_zero_In; now split).
    rewrite Hnz in H. destruct H.
  - now rewrite (WaveformClaims.is_modal_count_unique bins c c' Hc Hc').
Qed.

(** X14: on any integer array [find_pa_mean] returns without raising;
    entries below zero count as empty bins: the result is [None] exactly
    when no entry is positive, and otherwise the median of the indices
    holding the modal positive count (with those indices in ascending
    order, the middle one, or the mean of the two middle ones). *)
Theorem find_pa_mean_total (bins : list Z) :
  (forall e, find_pa_mean bins <> Raise e)
  /\ (find_pa_mean bins = Ok None <-> Forall (fun c => (c <= 0)%Z) bins)
  /\ (forall c, WaveformClaims.is_modal_count bins c ->
        exists (idx : list nat) (lo hi : nat),
          StronglySorted lt idx
          /\ (forall i, In i idx <-> bins !! i = Some c)
          /\ idx !! ((length idx - 1) / 2) = Some lo
          /\ idx !! (length idx / 2) = Some hi
          /\ find_pa_mean bins
             = Ok (Some (if Nat.even (length idx)
                         then ((PrimFloat.of_uint63 (Uint63.of_Z (Z.of_nat lo))
                                + PrimFloat.of_uint63 (Uint63.of_Z (Z.of_nat hi)))
                               / 2)%float
                         else (PrimFloat.of_uint63 (Uint63.of_Z (Z.of_nat hi))
                               / 1)%float))).
Proof.
  split; [|split]; [| |apply WaveformClaims.find_pa_mean_middle].
  all: destruct (WaveformClaims.find_pa_mean_cases bins) as [[Hnz Hr]|(c & Hc & Hr)].
  - intros e. now rewrite Hr.
  - intros e. now rewrite Hr.
  - assert (Hall : Forall (fun c => (c <= 0)%Z) bins).
    { apply Forall_forall. intros b Hb.
      destruct (Z.le_gt_cases b 0) as [|Hpos]; [assumption|].
      assert (Hin : In b (List.filter (fun c => (0 <? c)%Z) bins)).
      { apply non_zero_In. split; [now apply list_elem_of_In | lia]. }
      rewrite Hnz in Hin. destruct Hin. }
    tauto.
  - rewrite Hr. split; [discriminate|]. intros Hall.
    destruct Hc as (Hc & Hin & _). apply list_elem_of_In in Hin.
    assert (E := proj1 (Forall_forall _ _) Hall c Hin). simpl in E. lia.
Qed.

Lemma occ_app_zeros (bins : list Z) (n : nat) (c : Z) :
  (0 < c)%Z -> occ (bins ++ replicate n 0%Z) c = occ bins c.
Proof.
  intros Hc. unfold occ. rewrite count_occ_app.
  assert (E : count_occ Z.eq_dec (replicate n 0%Z) c = 0).
  { induction n as [|n IH]; [reflexivity|]. cbn [replicate].
    rewrite count_occ_cons_neq by lia. exact IH. }
  lia.
Qed.

Lemma where_eq_app_zeros (bins : list Z) (n : nat) (c : Z) :
  (0 < c)%Z -> where_eq (bins ++ replicate n 0%Z) c = where_eq bins c.
Proof.
  intros Hc. unfold where_eq. rewrite length_app, length_replicate.
  rewrite seq_app, List.filter_app.
  rewrite (DriftExtras.filter_drop_all _ (seq (0 + length bins) n)).
  - rewrite app_nil_r. apply List.filter_ext_in. intros i Hi. apply in_seq in Hi.
    now rewrite lookup_app_l by lia.
  - intros i Hi. apply in_seq in Hi. rewrite lookup_app_r by lia.
    rewrite lookup_replicate_2 by lia. cbn [default from_option id].
    apply Z.eqb_neq. lia.
Qed.

(** X15: empty bins appended after the last bin do not change the
    result. *)
Theorem find_pa_mean_trailing_zeros (bins : list Z) (n : nat) :
  find_pa_mean (bins ++ replicate n 0%Z) = find_pa_mean bins.
Proof.
  assert (Hnz : List.filter (fun c => (0 <? c)%Z) (bins ++ replicate n 0%Z)
                = List.filter (fun c => (0 <? c)%Z) bins).
  { rewrite List.filter_app. rewrite (DriftExtras.filter_drop_all _ (replicate n 0%Z)).
    - apply app_nil_r.
    - intros b Hb. apply list_elem_of_In, elem_of_replicate in Hb.
      destruct Hb as [-> _]. reflexivity. }
  destruct (WaveformClaims.find_pa_mean_cases bins) as [[Hz Hr]|(c & Hc & Hr)].
  - rewrite Hr. unfold find_pa_mean. now rewrite Hnz, Hz.
  - rewrite Hr. destruct Hc as (Hc & Hin & Hmax & Htie).
    rewrite <- (where_eq_app_zeros bins n c Hc).
    apply find_pa_mean_modal. split; [assumption|]. split; [apply in_or_app; now left|].
    split.
    + intros c' Hc'. rewrite !occ_app_zeros by assumption. now apply Hmax.
    + intros c' Hc'. rewrite !occ_app_zeros by assumption. now apply Htie.
Qed.

Lemma In_le_total (bins : list Z) (c : Z) :
  Forall (fun c => (0 <= c)%Z) bins -> In c bins -> (c <= total bins)%Z.
Proof.
  induction 1 as [|b bins Hb Hbins IH]; intros []; simpl; fold (total bins).
  - subst b. assert (0 <= total bins)%Z; [|lia].
    clear -Hbins. induction Hbins; simpl; [lia|]. fold (total l). lia.
  - specialize (IH H). lia.
Qed.

(** X16: the two stages compose.  On a histogram returned by
    [analyze_waveform], [find_pa_mean] never raises; it returns [None]
    exactly when no sample was counted, and otherwise the median of the
    indices holding the modal count (with those indices in ascending order,
    the middle one, or the mean of the two middle ones), a count that is
    between 1 and the number of samples. *)
Theorem reducer_pipeline (unallocatable : Z -> option exn)
    (waveform : list (float * float)) (blanking_time : float)
    (quantize_mode : string) (bins : list Z) :
  analyze_waveform unallocatable waveform blanking_time quantize_mode = Ok bins ->
  (find_pa_mean bins = Ok None <-> total bins = 0%Z)
  /\ (find_pa_mean bins = Ok None
      \/ exists c,
          WaveformClaims.is_modal_count bins c
          /\ (1 <= c <= Z.of_nat (length waveform))%Z
          /\ exists (idx : list nat) (lo hi : nat),
          StronglySorted lt idx
          /\ (forall i, In i idx <-> bins !! i = Some c)
          /\ idx !! ((length idx - 1) / 2) = Some lo
          /\ idx !! (length idx / 2) = Some hi
          /\ find_pa_mean bins
             = Ok (Some (if Nat.even (length idx)
                         then ((PrimFloat.of_uint63 (Uint63.of_Z (Z.of_nat lo))
                                + PrimFloat.of_uint63 (Uint63.of_Z (Z.of_nat hi)))
                               / 2)%float
                         else (PrimFloat.of_uint63 (Uint63.of_Z (Z.of_nat hi))
                               / 1)%float))).
Proof.
  intros Han. destruct (analyze_waveform_kept _ _ _ _ _ Han) as (Hnn & Htot & _).
  destruct (WaveformClaims.find_pa_mean_cases bins) as [[Hz Hr]|(c & Hc & Hr)].
  - split; [|now left]. split; [|intros _; exact Hr]. intros _.
    assert (Hall : forall b, In b bins -> b = 0%Z).
    { intros b Hb.
      assert (Hb0 := proj1 (Forall_forall _ _) Hnn b (proj2 (list_elem_of_In _ _) Hb)).
      simpl in Hb0. destruct (Z.eq_dec b 0%Z) as [|Hne]; [assumption|].
      assert (Hin : In b (List.filter (fun c => (0 <? c)%Z) bins)).
      { apply non_zero_In. split; [assumption | lia]. }
      rewrite Hz in Hin. destruct Hin. }
    clear -Hall. induction bins as [|b bins IH]; [reflexivity|]. simpl.
    fold (total bins). rewrite (Hall b (or_introl eq_refl)).
    rewrite IH; [reflexivity|]. intros b' Hb'. apply Hall. now right.
  - assert (Hle : (c <= total bins)%Z).
    { apply In_le_total; [assumption|]. apply Hc. }
    assert (Hpos : (0 < c)%Z) by apply Hc.
    split.
    + rewrite Hr. split; [discriminate | lia].
    + right. exists c. split; [assumption|]. split; [lia|].
      now apply WaveformClaims.find_pa_mean_middle.
Qed.

Lemma reducer_pipeline_witness :
  find_pa_mean (<[10 := 2%Z]> (<[20 := 1%Z]> (replicate 21 0%Z))) = Ok None
  <-> total (<[10 := 2%Z]> (<[20 := 1%Z]> (replicate 21 0%Z))) = 0%Z.
Proof.
  apply (reducer_pipeline ample [(10.2, 0.0); (20.5, 0.2); (10.8, 0.4)]%float 0.1 "floor").
  vm_compute. reflexivity.
Defined.

End WaveformExtras.
